(** * Vector store lifecycle: a shallow embedding of [src/vectorstore/store.py]

    The module manages one persistent Chroma collection: it splits documents
    into chunks, lazily opens or creates the collection, appends chunks to it
    and answers scored similarity queries.

    The text splitter and the Chroma engine are libraries outside the
    repository.  They appear here as capability interfaces ([TextSplitter],
    [Chroma]); every operation of theirs may raise.  The methods of the class
    [VectorStore] are written in a small state-and-exception monad over the
    instance field [_db], the persistence directory and the engine state. *)

From Stdlib Require Import List String Ascii ZArith QArith Bool Lia.
From Stdlib Require Import Sorting.Sorted.
Import ListNotations.

Set Implicit Arguments.

(* ------------------------------------------------------------------ *)
(** ** Documents *)

(** A metadata value.  Chroma stores scalars only; a list-valued entry is what
    its insert operation rejects. *)
Inductive MetaValue : Type :=
| MStr (s : string)
| MInt (z : Z)
| MBool (b : bool)
| MList (items : list string).

(** [langchain_core.documents.Document]: text plus a metadata mapping. *)
Record Document : Type := mkDocument {
  page_content : string;
  metadata : list (string * MetaValue)
}.

(* ------------------------------------------------------------------ *)
(** ** Exceptions *)

(** The exception classes the control flow of the module distinguishes:
    [except ValueError] catches the first one only. *)
Inductive exn : Type :=
| ValueError (msg : string)
| UnboundLocalError (name : string)
| OtherError (cls msg : string).

Definition is_ValueError (e : exn) : bool :=
  match e with
  | ValueError _ => true
  | _ => false
  end.

Inductive result (A : Type) : Type :=
| Ok (a : A)
| Raise (e : exn).

Arguments Ok {A} a.
Arguments Raise {A} e.

(* ------------------------------------------------------------------ *)
(** ** A state and exception monad

    State changes made before an exception is raised are kept, as in Python:
    nothing is rolled back. *)

Definition M (S A : Type) : Type := S -> result A * S.

Definition ret {S A : Type} (a : A) : M S A :=
  fun s => (Ok a, s).

Definition raise {S A : Type} (e : exn) : M S A :=
  fun s => (Raise e, s).

Definition bind {S A B : Type} (m : M S A) (k : A -> M S B) : M S B :=
  fun s =>
    match m s with
    | (Ok a, s') => k a s'
    | (Raise e, s') => (Raise e, s')
    end.

(** [try: body except ValueError: handler]. *)
Definition try_except_ValueError {S A : Type} (body handler : M S A) : M S A :=
  fun s =>
    match body s with
    | (Ok a, s') => (Ok a, s')
    | (Raise e, s') => if is_ValueError e then handler s' else (Raise e, s')
    end.

(** A call that reads or writes nothing of the modelled state. *)
Definition pure_call {S A : Type} (r : result A) : M S A :=
  fun s => (r, s).

Declare Scope vs_scope.
Delimit Scope vs_scope with vs.
Notation "x <- m ;; k" := (bind m (fun x => k))
  (at level 61, m at next level, right associativity) : vs_scope.
Notation "m ;;; k" := (bind m (fun _ => k))
  (at level 61, right associativity) : vs_scope.

(* ------------------------------------------------------------------ *)
(** ** Collaborators *)

(** [langchain.text_splitter.RecursiveCharacterTextSplitter]: the constructor
    checks the sizes and may raise; [split_text] cuts one text. *)
Class TextSplitter : Type := {
  splitter : Type;
  RecursiveCharacterTextSplitter : Z -> Z -> result splitter;
  split_text : splitter -> string -> result (list string)
}.

(** [langchain_chroma.Chroma] together with the embedding provider behind it.
    [handle] is a Chroma object, [engine] whatever state the engine keeps
    besides the names of the files in the persistence directory.  Each
    operation sees the directory listing and the engine state and returns
    both.  The first argument of the two constructors is the value of
    ["hnsw:space"] in [collection_metadata]. *)
Class Chroma : Type := {
  handle : Type;
  engine : Type;
  Chroma_new :
    string -> list string -> engine -> result handle * (list string * engine);
  Chroma_from_documents :
    list Document -> string -> list string -> engine ->
    result handle * (list string * engine);
  Chroma_add_documents :
    handle -> list Document -> list string -> engine ->
    result unit * (list string * engine);
  Chroma_similarity_search_with_relevance_scores :
    handle -> string -> Z -> Q -> list string -> engine ->
    result (list (Document * Q)) * (list string * engine)
}.

(** The part of [config] the module reads: [config.content]. *)
Record Config : Type := mkConfig {
  chunk_size : Z;
  chunk_overlap : Z
}.

(** Modelled from the spec: the Chunker's document-level step
    ([split_documents] of the text splitter, a library outside [src/]).  Each
    document's text is cut by [split_text] and the document's metadata is
    copied unchanged onto every chunk derived from it; chunks keep the order
    of the documents.  The first text that fails to split aborts the call. *)
Fixpoint split_documents `{TextSplitter}
  (text_splitter : splitter) (documents : list Document)
  : result (list Document) :=
  match documents with
  | [] => Ok []
  | d :: rest =>
      match split_text text_splitter (page_content d) with
      | Raise e => Raise e
      | Ok texts =>
          match split_documents text_splitter rest with
          | Raise e => Raise e
          | Ok chunks =>
              Ok (map (fun t => mkDocument t (metadata d)) texts ++ chunks)
          end
      end
  end.

(* ------------------------------------------------------------------ *)
(** ** The class [VectorStore] *)

Section VectorStore.

Context `{TS : TextSplitter} `{DB : Chroma}.
Variable config : Config.

(** Calls made to the engine, in order, each with its outcome. *)
Inductive Call : Type :=
| CallNew (out : result handle)
| CallFromDocuments (documents : list Document) (out : result handle)
| CallAddDocuments (db : handle) (documents : list Document) (out : result unit)
| CallSearch (db : handle) (query : string) (k : Z) (score_threshold : Q)
    (out : result (list (Document * Q))).

(** One [VectorStore] instance and the world it acts on.
    - [_db]: the instance field, [None] until a handle is cached;
    - [dir]: the persistence directory, [None] while the path does not exist,
      otherwise the names it contains;
    - [eng]: the engine's state;
    - [calls]: the engine calls made so far. *)
Record State : Type := mkState {
  _db : option handle;
  dir : option (list string);
  eng : engine;
  calls : list Call
}.

(** [__init__]: nothing is opened; [self._db = None]. *)
Definition VectorStore_init (d : option (list string)) (e : engine) : State :=
  mkState None d e [].

Definition get_db : M State (option handle) :=
  fun s => (Ok (_db s), s).

Definition set_db (h : handle) : M State unit :=
  fun s => (Ok tt, mkState (Some h) (dir s) (eng s) (calls s)).

(** [os.makedirs(persist_directory, exist_ok=True)], on a path the process
    can create: an absent directory comes into being, empty.  A path that
    cannot be created (where the call raises [OSError]) is outside the
    model. *)
Definition os_makedirs : M State unit :=
  fun s =>
    (Ok tt,
     mkState (_db s)
       (match dir s with Some names => Some names | None => Some [] end)
       (eng s) (calls s)).

(** [os.path.exists(persist_directory)]. *)
Definition os_path_exists : M State bool :=
  fun s => (Ok (match dir s with Some _ => true | None => false end), s).

(** [os.listdir(persist_directory)]. *)
Definition os_listdir : M State (list string) :=
  fun s =>
    match dir s with
    | Some names => (Ok names, s)
    | None => (Raise (OtherError "FileNotFoundError" "persist_directory"), s)
    end.

(** An engine operation run against the directory.  The engine rewrites the
    contents of the directory and its own state; the call and its outcome are
    appended to [calls].  On a path that does not exist the operation fails
    (this happens in no state a [VectorStore] reaches). *)
Definition engine_call {A : Type} (ev : result A -> Call)
  (op : list string -> engine -> result A * (list string * engine))
  : M State A :=
  fun s =>
    match dir s with
    | Some names =>
        let '(r, (names', e')) := op names (eng s) in
        (r, mkState (_db s) (Some names') e' (calls s ++ [ev r]))
    | None =>
        let r := Raise (OtherError "FileNotFoundError" "persist_directory") in
        (r, mkState (_db s) None (eng s) (calls s ++ [ev r]))
    end.

Definition no_index_msg : string :=
  "No existing vector store found and no documents provided to create one.".

Definition cosine : string := "cosine".

(** A Python list is true when it is not empty. *)
Definition truthy {A : Type} (l : list A) : bool :=
  match l with
  | [] => false
  | _ :: _ => true
  end.

Open Scope vs_scope.

(** [VectorStore._get_or_create_db(documents=None)]. *)
Definition _get_or_create_db (documents : option (list Document))
  : M State handle :=
  cached <- get_db ;;
  match cached with
  | Some db => ret db
  | None =>
      os_makedirs ;;;
      present <- os_path_exists ;;
      populated <-
        (if present then names <- os_listdir ;; ret (truthy names)
         else ret false) ;;
      if (populated : bool) then
        db <- engine_call CallNew (Chroma_new cosine) ;;
        set_db db ;;;
        match documents with
        | Some docs =>
            engine_call (CallAddDocuments db docs)
              (Chroma_add_documents db docs) ;;;
            ret db
        | None => ret db
        end
      else
        match documents with
        | None => raise (ValueError no_index_msg)
        | Some docs =>
            db <- engine_call (CallFromDocuments docs)
                    (Chroma_from_documents docs cosine) ;;
            set_db db ;;;
            ret db
        end
  end.

(** The local variables of [add_documents] that the handler reads. *)
Record Locals : Type := mkLocals {
  splits : option (list Document)
}.

Definition lift {A : Type} (m : M State A) : M (Locals * State) A :=
  fun ls =>
    let '(r, s') := m (snd ls) in (r, (fst ls, s')).

Definition assign_splits (v : list Document) : M (Locals * State) unit :=
  fun ls => (Ok tt, (mkLocals (Some v), snd ls)).

(** Reading [splits]: an unassigned local raises [UnboundLocalError]. *)
Definition read_splits : M (Locals * State) (list Document) :=
  fun ls =>
    match splits (fst ls) with
    | Some v => (Ok v, ls)
    | None => (Raise (UnboundLocalError "splits"), ls)
    end.

(** The body of [VectorStore.add_documents], run in a frame of locals. *)
Definition add_documents_frame (documents : list Document)
  : M (Locals * State) nat :=
  try_except_ValueError
    (text_splitter <-
       pure_call (RecursiveCharacterTextSplitter
                    (chunk_size config) (chunk_overlap config)) ;;
     chunks <- pure_call (split_documents text_splitter documents) ;;
     assign_splits chunks ;;;
     db <- lift (_get_or_create_db None) ;;
     arg <- read_splits ;;
     lift (engine_call (CallAddDocuments db arg)
             (Chroma_add_documents db arg)) ;;;
     counted <- read_splits ;;
     ret (List.length counted))
    (arg <- read_splits ;;
     lift (_get_or_create_db (Some arg)) ;;;
     counted <- read_splits ;;
     ret (List.length counted)).

(** [VectorStore.add_documents(documents)]. *)
Definition add_documents (documents : list Document) : M State nat :=
  fun s =>
    let '(r, ls) := add_documents_frame documents (mkLocals None, s) in
    (r, snd ls).

(** [VectorStore.search(query, limit, score_threshold)]. *)
Definition search (query : string) (limit : Z) (score_threshold : Q)
  : M State (list (Document * Q)) :=
  db <- _get_or_create_db None ;;
  results <-
    engine_call (CallSearch db query limit score_threshold)
      (Chroma_similarity_search_with_relevance_scores
         db query limit score_threshold) ;;
  ret results.

(** The value [add_documents] binds to [splits]: the splitter is built from
    the configured sizes and run over the documents. *)
Definition splitting_step (documents : list Document)
  : result (list Document) :=
  match
    RecursiveCharacterTextSplitter (chunk_size config) (chunk_overlap config)
  with
  | Ok text_splitter => split_documents text_splitter documents
  | Raise e => Raise e
  end.

(** What is left of [add_documents] once [splits] is bound to [chunks]:
    append through the handle, and on a [ValueError] go through
    [_get_or_create_db(splits)]. *)
Definition append_or_create (chunks : list Document) : M State nat :=
  try_except_ValueError
    (db <- _get_or_create_db None ;;
     engine_call (CallAddDocuments db chunks)
       (Chroma_add_documents db chunks) ;;;
     ret (List.length chunks))
    (_get_or_create_db (Some chunks) ;;;
     ret (List.length chunks)).

Close Scope vs_scope.

(** *** Sequences of calls on one instance *)

Inductive Request : Type :=
| ReqAdd (documents : list Document)
| ReqSearch (query : string) (limit : Z) (score_threshold : Q).

(** The state a request leaves behind, whether it returns or raises. *)
Definition serve (r : Request) (s : State) : State :=
  match r with
  | ReqAdd documents => snd (add_documents documents s)
  | ReqSearch query limit score_threshold =>
      snd (search query limit score_threshold s)
  end.

Definition serve_all (rs : list Request) (s : State) : State :=
  fold_left (fun acc r => serve r acc) rs s.

(** States of an instance built by [__init__] and used through its methods. *)
Inductive reachable : State -> Prop :=
| reach_init : forall d e, reachable (VectorStore_init d e)
| reach_step : forall r s, reachable s -> reachable (serve r s).

(** A cached handle lives in an existing directory. *)
Definition handle_has_dir (s : State) : Prop :=
  _db s <> None -> dir s <> None.

(** The engine calls that go through handle [h]. *)
Definition on_handle (h : handle) (c : Call) : Prop :=
  match c with
  | CallAddDocuments db _ _ => db = h
  | CallSearch db _ _ _ _ => db = h
  | CallNew _ => False
  | CallFromDocuments _ _ => False
  end.

(** What the engine promises for a scored query: at most [k] results, none
    below the threshold, best first. *)
Definition by_descending_score (a b : Document * Q) : Prop :=
  (snd b <= snd a)%Q.

Definition search_contract : Prop :=
  forall h query k thr names e rs names' e',
    (0 < k)%Z -> (0 <= thr)%Q -> (thr <= 1)%Q ->
    Chroma_similarity_search_with_relevance_scores h query k thr names e
      = (Ok rs, (names', e')) ->
    (Z.of_nat (List.length rs) <= k)%Z /\
    Forall (fun r => (thr <= snd r)%Q) rs /\
    StronglySorted by_descending_score rs.

(** *** Reading the call log *)


(** The documents a call hands to the engine. *)
Definition call_documents (c : Call) : option (list Document) :=
  match c with
  | CallFromDocuments documents _ => Some documents
  | CallAddDocuments _ documents _ => Some documents
  | _ => None
  end.

Definition carries_documents (c : Call) : bool :=
  match call_documents c with
  | Some _ => true
  | None => false
  end.

(** The handle a load or a creation returned. *)
Definition call_opened (c : Call) : option handle :=
  match c with
  | CallNew (Ok h) => Some h
  | CallFromDocuments _ (Ok h) => Some h
  | _ => None
  end.

(** A load or a creation that raised. *)
Definition failed_open (c : Call) : Prop :=
  match c with
  | CallNew (Raise _) => True
  | CallFromDocuments _ (Raise _) => True
  | _ => False
  end.

(** The shape of an instance's call log: without a handle, only loads and
    creations that raised; with handle [h], such failures, then the one load
    or creation that returned [h], then calls through [h]. *)
Definition single_open (s : State) : Prop :=
  match _db s with
  | None => Forall failed_open (calls s)
  | Some h =>
      exists before c after,
        calls s = before ++ c :: after /\
        Forall failed_open before /\
        call_opened c = Some h /\
        Forall (on_handle h) after
  end.

(** What [os.listdir] sees once [os.makedirs] has run. *)
Definition listing (s : State) : list string :=
  match dir s with
  | Some names => names
  | None => []
  end.

(** The ways [_get_or_create_db] ends when no handle is cached, read off its
    branches: the load raises; the load returns and there is nothing to
    insert; the load returns and the insert ends with [out]; there is nothing
    to load and nothing to create from; the creation ends with [out]. *)
Inductive opens (documents : option (list Document)) (s : State)
  : result handle * State -> Prop :=
| opens_load_raises : forall e names1 e1,
    truthy (listing s) = true ->
    Chroma_new cosine (listing s) (eng s) = (Raise e, (names1, e1)) ->
    opens documents s
      (Raise e, mkState None (Some names1) e1 (calls s ++ [CallNew (Raise e)]))
| opens_load : forall h names1 e1,
    truthy (listing s) = true ->
    Chroma_new cosine (listing s) (eng s) = (Ok h, (names1, e1)) ->
    documents = None ->
    opens documents s
      (Ok h, mkState (Some h) (Some names1) e1 (calls s ++ [CallNew (Ok h)]))
| opens_load_append : forall h names1 e1 docs out names2 e2,
    truthy (listing s) = true ->
    Chroma_new cosine (listing s) (eng s) = (Ok h, (names1, e1)) ->
    documents = Some docs ->
    Chroma_add_documents h docs names1 e1 = (out, (names2, e2)) ->
    opens documents s
      (match out with Ok _ => Ok h | Raise e => Raise e end,
       mkState (Some h) (Some names2) e2
         (calls s ++ [CallNew (Ok h); CallAddDocuments h docs out]))
| opens_nothing :
    listing s = [] ->
    documents = None ->
    opens documents s
      (Raise (ValueError no_index_msg),
       mkState None (Some []) (eng s) (calls s))
| opens_create : forall docs out names1 e1,
    listing s = [] ->
    documents = Some docs ->
    Chroma_from_documents docs cosine [] (eng s) = (out, (names1, e1)) ->
    opens documents s
      (out,
       mkState (match out with Ok h => Some h | Raise _ => None end)
         (Some names1) e1 (calls s ++ [CallFromDocuments docs out])).

End VectorStore.

(* ------------------------------------------------------------------ *)
(** ** The persistence path *)

Definition sep : ascii := "/"%char.

Definition starts_with_sep (p : string) : bool :=
  match p with
  | String c _ => Ascii.eqb c sep
  | EmptyString => false
  end.

Fixpoint ends_with_sep (p : string) : bool :=
  match p with
  | EmptyString => false
  | String c EmptyString => Ascii.eqb c sep
  | String _ rest => ends_with_sep rest
  end.

(** [os.path.join(a, b)] on POSIX: an absolute [b] replaces [a]; otherwise
    [b] is appended, after a separator unless [a] is empty or ends in one. *)
Definition os_path_join (a b : string) : string :=
  if starts_with_sep b then b
  else if (String.eqb a "" || ends_with_sep a)%bool then String.append a b
  else String.append a (String sep b).

(** [get_vectorstore_path()], with [os.getcwd()] given as [cwd]. *)
Definition get_vectorstore_path (cwd : string) : string :=
  os_path_join cwd "chromadb".

(** The [persist_directory] field [__init__] sets:
    [persist_directory or get_vectorstore_path()].  [None] and the empty
    string are both false for [or]. *)
Definition init_persist_directory
  (persist_directory : option string) (cwd : string) : string :=
  match persist_directory with
  | Some p => if String.eqb p "" then get_vectorstore_path cwd else p
  | None => get_vectorstore_path cwd
  end.

(* ------------------------------------------------------------------ *)
(** ** Reference collaborators

    An in-memory engine and a fixed-window splitter, small enough to run.
    They instantiate the two interfaces so that the methods can be evaluated
    on concrete documents. *)

Definition scalar (v : MetaValue) : bool :=
  match v with
  | MList _ => false
  | _ => true
  end.

(** A document the engine accepts: every metadata value is a scalar. *)
Definition storable (d : Document) : bool :=
  forallb (fun kv => scalar (snd kv)) (metadata d).

Definition bad_metadata : exn :=
  ValueError "Expected metadata value to be a str, int, float or bool".

(** Share of the query's characters that occur in the chunk. *)
Definition relevance (query : string) (d : Document) : Q :=
  let qs := list_ascii_of_string query in
  let text := list_ascii_of_string (page_content d) in
  let hits := filter (fun c => existsb (Ascii.eqb c) text) qs in
  Z.of_nat (List.length hits) # Pos.of_nat (List.length qs).

(** Insertion by descending score; among equal scores the earlier stays first. *)
Fixpoint insert_ranked (r : Document * Q) (l : list (Document * Q))
  : list (Document * Q) :=
  match l with
  | [] => [r]
  | x :: l' =>
      if Qle_bool (snd x) (snd r) then r :: x :: l'
      else x :: insert_ranked r l'
  end.

Definition rank (l : list (Document * Q)) : list (Document * Q) :=
  fold_right insert_ranked [] l.

Definition memory_search (query : string) (k : Z) (thr : Q)
  (collection : list Document) : list (Document * Q) :=
  filter (fun r => Qle_bool thr (snd r))
    (firstn (Z.to_nat k)
       (rank (map (fun d => (d, relevance query d)) collection))).

(** The engine state is the stored collection, in insertion order. *)
#[export] Instance MemoryChroma : Chroma := {|
  handle := unit;
  engine := list Document;
  Chroma_new := fun _ names collection => (Ok tt, (names, collection));
  Chroma_from_documents := fun docs _ names collection =>
    if forallb storable docs
    then (Ok tt, ("chroma.sqlite3"%string :: names, collection ++ docs))
    else (Raise bad_metadata, (names, collection));
  Chroma_add_documents := fun _ docs names collection =>
    if forallb storable docs
    then (Ok tt, (names, collection ++ docs))
    else (Raise bad_metadata, (names, collection));
  Chroma_similarity_search_with_relevance_scores :=
    fun _ query k thr names collection =>
      (Ok (memory_search query k thr collection), (names, collection))
|}.

(** The embedding provider and the metric of the vector database: vectors,
    the embedding of a text, the native distance between two vectors and its
    conversion into a normalized relevance score.  Floating-point values are
    taken as rationals. *)
Record Scoring : Type := mkScoring {
  vector : Type;
  embed : string -> vector;
  distance : vector -> vector -> Q;
  to_relevance : Q -> Q
}.

(** The relevance of a stored chunk for a query. *)
Definition relevance_score (sc : Scoring) (query : string) (d : Document) : Q :=
  to_relevance sc (distance sc (embed sc query) (embed sc (page_content d))).

(** Modelled from the spec: the scored similarity query of the vector
    database ([similarity_search_with_relevance_scores], a library outside
    [src/]).  The query is embedded, the native distance to each stored chunk
    is converted into a relevance score, up to [k] candidates are taken best
    first (ties in insertion order), and every result scoring below the
    threshold is discarded. *)
Definition scored_query (sc : Scoring) (collection : list Document)
  (query : string) (k : Z) (score_threshold : Q) : list (Document * Q) :=
  filter (fun r => Qle_bool score_threshold (snd r))
    (firstn (Z.to_nat k)
       (rank (map (fun d => (d, relevance_score sc query d)) collection))).

(** An engine whose scored query is [scored_query] over the chunks it stores
    ([stored] reads them off its state) and leaves the index as it is; its
    other operations are those of [DB]. *)
Definition WithScoredQuery (DB : Chroma)
  (stored : @engine DB -> list Document) (sc : Scoring) : Chroma := {|
  handle := @handle DB;
  engine := @engine DB;
  Chroma_new := @Chroma_new DB;
  Chroma_from_documents := @Chroma_from_documents DB;
  Chroma_add_documents := @Chroma_add_documents DB;
  Chroma_similarity_search_with_relevance_scores :=
    fun _ query k score_threshold names e =>
      (Ok (scored_query sc (stored e) query k score_threshold), (names, e))
|}.

(** Windows of [size] characters, each starting [stride] after the last. *)
Fixpoint windows (fuel size stride : nat) (text : string) : list string :=
  match fuel with
  | O => []
  | S fuel' =>
      if Nat.leb (String.length text) size then [text]
      else substring 0 size text
             :: windows fuel' size stride
                  (substring stride (String.length text - stride) text)
  end.

Definition bad_sizes : exn :=
  ValueError "Got a larger chunk overlap than chunk size, should be smaller.".

(** The constructor rejects sizes outside [0 <= overlap <= size], [0 < size]. *)
#[export] Instance WindowSplitter : TextSplitter := {|
  splitter := nat * nat;
  RecursiveCharacterTextSplitter := fun size overlap =>
    if ((size <=? 0) || (overlap <? 0) || (size <? overlap))%Z
    then Raise bad_sizes
    else Ok (Z.to_nat size, Nat.max 1 (Z.to_nat (size - overlap)));
  split_text := fun sp text =>
    Ok (if String.eqb text "" then []
        else windows (String.length text) (fst sp) (snd sp) text)
|}.

(** Sample data. *)
Definition paris : Document :=
  mkDocument "Paris is the capital of France."
    [("source"%string, MStr "geo.txt")].

Definition tagged : Document :=
  mkDocument "Lyon is a city in France."
    [("tags"%string, MList ["geo"%string; "fr"%string])].

Definition alphabet : Document :=
  mkDocument "abcdefghij" [("source"%string, MStr "abc.txt")].

Definition sample_config : Config := mkConfig 1000 0.
Definition narrow_config : Config := mkConfig 4 1.
Definition inverted_config : Config := mkConfig 100 200.

(** A fresh instance on a path that does not exist yet. *)
Definition fresh_store : State :=
  VectorStore_init None ([] : list Document).

(** A fresh instance on a directory that already holds an index. *)
Definition existing_store : State :=
  VectorStore_init (Some ["chroma.sqlite3"%string]) [paris].

(** An engine that follows a script of faults.  Each operation takes the
    next entry of the script: [Some e] makes it raise [e] and change nothing
    else; [None], or a script that has run out, lets it behave as the
    in-memory engine. *)
Definition scripted {A : Type}
  (op : list string -> list Document ->
        result A * (list string * list Document))
  (names : list string) (st : list (option exn) * list Document)
  : result A * (list string * (list (option exn) * list Document)) :=
  match fst st with
  | Some e :: script => (Raise e, (names, (script, snd st)))
  | None :: script =>
      let '(r, (names', collection)) := op names (snd st) in
      (r, (names', (script, collection)))
  | [] =>
      let '(r, (names', collection)) := op names (snd st) in
      (r, (names', ([], collection)))
  end.

Definition ScriptedChroma : Chroma := {|
  handle := unit;
  engine := list (option exn) * list Document;
  Chroma_new := fun space =>
    scripted (@Chroma_new MemoryChroma space);
  Chroma_from_documents := fun docs space =>
    scripted (@Chroma_from_documents MemoryChroma docs space);
  Chroma_add_documents := fun h docs =>
    scripted (@Chroma_add_documents MemoryChroma h docs);
  Chroma_similarity_search_with_relevance_scores := fun h query k thr =>
    scripted (@Chroma_similarity_search_with_relevance_scores MemoryChroma
                h query k thr)
|}.

(** A splitter that accepts any sizes and whose [split_text] always raises
    [e]. *)
Definition RaisingSplitter (e : exn) : TextSplitter := {|
  splitter := unit;
  RecursiveCharacterTextSplitter := fun _ _ => Ok tt;
  split_text := fun _ _ => Raise e
|}.

Definition not_a_string : exn :=
  OtherError "TypeError" "expected string or bytes-like object".

Definition unreachable_provider : exn :=
  OtherError "APIConnectionError" "Connection error.".


(** An instance on an existing index whose engine follows [script]. *)
Definition scripted_store (script : list (option exn))
  : @State ScriptedChroma :=
  @VectorStore_init ScriptedChroma
    (Some ["chroma.sqlite3"%string]) (script, [paris]).

(** The state after [paris] was added through an engine whose third
    operation fails with a connection error. *)
Definition store_before_outage : @State ScriptedChroma :=
  @serve WindowSplitter ScriptedChroma sample_config (ReqAdd [paris])
    (scripted_store [None; None; Some unreachable_provider]).

(** A scoring for the samples: a text is its own vector, the distance is
    the share of the query's characters missing from the chunk, and the
    relevance is one minus the distance. *)
Definition sample_scoring : Scoring := {|
  vector := string;
  embed := fun text => text;
  distance := fun q t => (1 - relevance q (mkDocument t []))%Q;
  to_relevance := fun d => (1 - d)%Q
|}.

Definition digits : Document :=
  mkDocument "0123456789" [("source"%string, MStr "num.txt")].

Definition lyon : Document :=
  mkDocument "Lyon is a city in France."
    [("source"%string, MStr "geo.txt")].

(** An instance on an index of four chunks, queried through
    [scored_query]. *)
Definition scored_store
  : @State (WithScoredQuery MemoryChroma (fun e => e) sample_scoring) :=
  @VectorStore_init (WithScoredQuery MemoryChroma (fun e => e) sample_scoring)
    (Some ["chroma.sqlite3"%string]) [alphabet; digits; lyon; paris].

(* ------------------------------------------------------------------ *)
(** ** Properties of the methods *)

Section Properties.

Context `{TS : TextSplitter} `{DB : Chroma}.
Variable config : Config.

Ltac unfold_ops :=
  unfold search, add_documents, add_documents_frame, _get_or_create_db,
    try_except_ValueError, engine_call, lift, assign_splits, read_splits,
    os_makedirs, os_path_exists, os_listdir, get_db, set_db,
    bind, ret, raise, pure_call in *;
  cbn [_db dir eng calls fst snd splits] in *.

(** The fast path: with a handle cached nothing else happens. *)
Lemma _get_or_create_db_cached :
  forall (s : State) (h : handle) (documents : option (list Document)),
    _db s = Some h ->
    _get_or_create_db documents s = (Ok h, s).
Proof.
  intros s h documents Hc. unfold_ops. rewrite Hc. reflexivity.
Qed.

(** With nothing cached and nothing to load, and no documents given, the
    call raises the no-index error; the directory exists afterwards. *)
Lemma _get_or_create_db_nothing :
  forall (s : State),
    _db s = None ->
    dir s = None \/ dir s = Some [] ->
    _get_or_create_db None s
      = (Raise (ValueError no_index_msg),
         mkState None (Some []) (eng s) (calls s)).
Proof.
  intros s Hc [Hd | Hd]; unfold_ops; rewrite Hc, Hd; cbn; rewrite Hc; reflexivity.
Qed.

(** Once the splitter has run, [add_documents] is decided by its outcome. *)
Lemma add_documents_split_raises :
  forall (documents : list Document) (e : exn) (s : State),
    splitting_step config documents = Raise e ->
    add_documents config documents s
      = (Raise (if is_ValueError e then UnboundLocalError "splits" else e), s).
Proof.
  intros documents e s Hsp. unfold splitting_step in Hsp. unfold_ops.
  destruct (RecursiveCharacterTextSplitter _ _) as [ts | e0].
  - rewrite Hsp. destruct (is_ValueError e); reflexivity.
  - inversion Hsp; subst. destruct (is_ValueError e); reflexivity.
Qed.

Lemma add_documents_split_ok :
  forall (documents chunks : list Document) (s : State),
    splitting_step config documents = Ok chunks ->
    add_documents config documents s = append_or_create chunks s.
Proof.
  intros documents chunks s Hsp. unfold splitting_step in Hsp.
  unfold append_or_create. unfold add_documents, add_documents_frame.
  unfold try_except_ValueError, bind, pure_call, lift, assign_splits,
    read_splits, ret.
  destruct (RecursiveCharacterTextSplitter _ _) as [ts | e0]; [| discriminate].
  rewrite Hsp. cbn [fst snd splits].
  destruct (_get_or_create_db None s) as [[h | e] s1]; cbn [fst snd splits].
  - destruct (engine_call _ _ s1) as [[u | e] s2]; cbn [fst snd splits].
    + reflexivity.
    + destruct (is_ValueError e); [| reflexivity].
      destruct (_get_or_create_db (Some chunks) s2) as [[h' | e'] s3];
        reflexivity.
  - destruct (is_ValueError e); [| reflexivity].
    destruct (_get_or_create_db (Some chunks) s1) as [[h' | e'] s3];
      reflexivity.
Qed.

(** *** What an engine call touches *)

Lemma engine_call_effect :
  forall (A : Type) (ev : result A -> Call)
         (op : list string -> engine -> result A * (list string * engine))
         (s : State),
    _db (snd (engine_call ev op s)) = _db s /\
    calls (snd (engine_call ev op s))
      = calls s ++ [ev (fst (engine_call ev op s))] /\
    (dir s <> None -> dir (snd (engine_call ev op s)) <> None).
Proof.
  intros A ev op s. unfold engine_call.
  destruct (dir s) as [names |].
  - destruct (op names (eng s)) as [r [names' e']]. cbn.
    repeat split; congruence.
  - cbn. repeat split; congruence.
Qed.

(** Without a cached handle the directory is made before anything else, and
    it is still there when the call ends, however it ends. *)
Lemma _get_or_create_db_makes_dir :
  forall (documents : option (list Document)) (s : State),
    _db s = None ->
    dir (snd (_get_or_create_db documents s)) <> None.
Proof.
  intros documents s Hc. unfold_ops. rewrite Hc.
  destruct (dir s) as [names |]; cbn;
    [destruct names as [| n names]; cbn |].
  2: destruct (Chroma_new cosine (n :: names) (eng s)) as [[h | e] [l e1]];
       cbn; try congruence;
       destruct documents as [docs |]; cbn; try congruence;
       destruct (Chroma_add_documents h docs l e1) as [[u | e] [l2 e2]];
       cbn; congruence.
  all: destruct documents as [docs |]; cbn; try congruence;
       destruct (Chroma_from_documents docs cosine [] (eng s))
         as [[h | e] [l e1]]; cbn; congruence.
Qed.

Lemma _get_or_create_db_keeps_invariant :
  forall (documents : option (list Document)) (s : State),
    handle_has_dir s -> handle_has_dir (snd (_get_or_create_db documents s)).
Proof.
  intros documents s Hinv. destruct (_db s) as [h |] eqn:Hc.
  - rewrite (_get_or_create_db_cached s documents Hc). exact Hinv.
  - intros _. now apply _get_or_create_db_makes_dir.
Qed.

Lemma engine_call_keeps_invariant :
  forall (A : Type) (ev : result A -> Call)
         (op : list string -> engine -> result A * (list string * engine))
         (s : State),
    handle_has_dir s -> handle_has_dir (snd (engine_call ev op s)).
Proof.
  intros A ev op s Hinv Hdb.
  destruct (engine_call_effect ev op s) as (Hd & _ & Hdir).
  apply Hdir, Hinv. congruence.
Qed.

Lemma append_or_create_keeps_invariant :
  forall (chunks : list Document) (s : State),
    handle_has_dir s -> handle_has_dir (snd (append_or_create chunks s)).
Proof.
  intros chunks s Hinv.
  assert (Hfallback : forall s1, handle_has_dir s1 ->
            handle_has_dir
              (snd (bind (_get_or_create_db (Some chunks))
                      (fun _ => ret (List.length chunks)) s1))).
  { intros s1 H1. unfold bind, ret.
    pose proof (_get_or_create_db_keeps_invariant (Some chunks) H1) as H3.
    destruct (_get_or_create_db (Some chunks) s1) as [[h' | e'] s3];
      exact H3. }
  unfold append_or_create, try_except_ValueError.
  unfold bind at 1 2. unfold ret at 1.
  pose proof (_get_or_create_db_keeps_invariant None Hinv) as H1.
  destruct (_get_or_create_db None s) as [[h | e] s1]; cbn [fst snd] in H1.
  - pose proof (engine_call_keeps_invariant
                  (CallAddDocuments h chunks) (Chroma_add_documents h chunks) H1)
      as H2.
    destruct (engine_call _ _ s1) as [[u | e] s2]; cbn [fst snd] in H2.
    + exact H2.
    + destruct (is_ValueError e); [now apply Hfallback | exact H2].
  - destruct (is_ValueError e); [now apply Hfallback | exact H1].
Qed.

Lemma add_documents_keeps_invariant :
  forall (documents : list Document) (s : State),
    handle_has_dir s -> handle_has_dir (snd (add_documents config documents s)).
Proof.
  intros documents s Hinv.
  destruct (splitting_step config documents) as [chunks | e] eqn:Hsp.
  - rewrite (add_documents_split_ok _ s Hsp).
    now apply append_or_create_keeps_invariant.
  - rewrite (add_documents_split_raises _ s Hsp). exact Hinv.
Qed.

Lemma search_keeps_invariant :
  forall (query : string) (limit : Z) (thr : Q) (s : State),
    handle_has_dir s -> handle_has_dir (snd (search query limit thr s)).
Proof.
  intros query limit thr s Hinv. unfold search, bind, ret.
  pose proof (_get_or_create_db_keeps_invariant None Hinv) as H1.
  destruct (_get_or_create_db None s) as [[h | e] s1]; cbn [fst snd] in *; auto.
  pose proof (engine_call_keeps_invariant
                (CallSearch h query limit thr)
                (Chroma_similarity_search_with_relevance_scores h query limit thr)
                H1) as H2.
  destruct (engine_call _ _ s1) as [[rs | e] s2]; cbn [fst snd] in *; auto.
Qed.

Lemma reachable_handle_has_dir :
  forall s : State, reachable config s -> handle_has_dir s.
Proof.
  induction 1 as [d e | r s Hr IH].
  - intros Hdb. cbn in Hdb. congruence.
  - destruct r as [documents | query limit thr]; cbn [serve].
    + now apply add_documents_keeps_invariant.
    + now apply search_keeps_invariant.
Qed.

(** *** The open-or-create paths *)

(** C3.  With no handle cached and a persistence directory that is absent or
    empty, [search] raises the no-index [ValueError]; it returns no result and
    reaches no engine call. *)
Theorem search_without_index_raises :
  forall (query : string) (limit : Z) (score_threshold : Q) (s : State),
    _db s = None ->
    dir s = None \/ dir s = Some [] ->
    search query limit score_threshold s
      = (Raise (ValueError no_index_msg),
         mkState None (Some []) (eng s) (calls s)).
Proof.
  intros query limit thr s Hc Hd. unfold search, bind.
  rewrite (_get_or_create_db_nothing s Hc Hd). reflexivity.
Qed.

(** C10.  On an instance whose persistence directory does not exist, a call
    to [search] fails with the no-index error and leaves the directory
    created, and empty, behind. *)
Theorem search_creates_missing_directory :
  forall (query : string) (limit : Z) (score_threshold : Q) (s : State),
    reachable config s ->
    dir s = None ->
    fst (search query limit score_threshold s)
      = Raise (ValueError no_index_msg) /\
    dir (snd (search query limit score_threshold s)) = Some [].
Proof.
  intros query limit thr s Hr Hd.
  assert (Hc : _db s = None).
  { pose proof (reachable_handle_has_dir Hr) as Hinv.
    destruct (_db s) as [h |] eqn:E; [| reflexivity].
    exfalso. apply Hinv; [rewrite E; discriminate | exact Hd]. }
  unfold search, bind.
  rewrite (_get_or_create_db_nothing s Hc (or_introl Hd)).
  split; reflexivity.
Qed.

(** C4.  With no handle cached: from a directory that is not empty the
    existing index is loaded (cosine space), cached and returned, and pending
    chunks are inserted into the loaded index before it is returned; from an
    empty or new directory with pending chunks a new persisted index is
    created from exactly those chunks, cached and returned. *)
Theorem open_or_create_paths :
  forall (s : State),
    _db s = None ->
    (forall names h names1 e1,
        dir s = Some names -> names <> [] ->
        Chroma_new cosine names (eng s) = (Ok h, (names1, e1)) ->
        _get_or_create_db None s
          = (Ok h,
             mkState (Some h) (Some names1) e1 (calls s ++ [CallNew (Ok h)]))
        /\
        forall docs names2 e2,
          Chroma_add_documents h docs names1 e1 = (Ok tt, (names2, e2)) ->
          _get_or_create_db (Some docs) s
            = (Ok h,
               mkState (Some h) (Some names2) e2
                 (calls s ++ [CallNew (Ok h); CallAddDocuments h docs (Ok tt)])))
    /\
    (forall docs h names1 e1,
        dir s = None \/ dir s = Some [] ->
        Chroma_from_documents docs cosine [] (eng s) = (Ok h, (names1, e1)) ->
        _get_or_create_db (Some docs) s
          = (Ok h,
             mkState (Some h) (Some names1) e1
               (calls s ++ [CallFromDocuments docs (Ok h)]))).
Proof.
  intros s Hc. split.
  - intros names h names1 e1 Hd Hne Hnew.
    destruct names as [| n names]; [congruence |]. split.
    + unfold_ops. rewrite Hc, Hd. cbn. rewrite Hnew. cbn. reflexivity.
    + intros docs names2 e2 Hadd.
      unfold_ops. rewrite Hc, Hd. cbn. rewrite Hnew. cbn. rewrite Hadd. cbn.
      rewrite <- app_assoc. reflexivity.
  - intros docs h names1 e1 Hd Hfrom.
    destruct Hd as [Hd | Hd]; unfold_ops; rewrite Hc, Hd; cbn;
      rewrite Hfrom; cbn; reflexivity.
Qed.

(** *** Search *)

(** [search] hands the limit and the threshold to the engine as they are and
    returns its answer untouched: what the engine's scored query guarantees,
    [search] guarantees. *)
Lemma search_keeps_contract :
  search_contract ->
  forall (query : string) (limit : Z) (score_threshold : Q)
         (s s' : State) (results : list (Document * Q)),
    (0 < limit)%Z ->
    (0 <= score_threshold)%Q -> (score_threshold <= 1)%Q ->
    search query limit score_threshold s = (Ok results, s') ->
    (Z.of_nat (List.length results) <= limit)%Z /\
    Forall (fun r => (score_threshold <= snd r)%Q) results /\
    StronglySorted by_descending_score results.
Proof.
  intros Hcontract query limit thr s s' results Hlim Hlo Hhi Hrun.
  unfold search, bind, ret in Hrun.
  destruct (_get_or_create_db None s) as [[h | e] s1]; [| discriminate].
  unfold engine_call in Hrun.
  destruct (dir s1) as [names |]; [| discriminate].
  destruct (Chroma_similarity_search_with_relevance_scores
              h query limit thr names (eng s1))
    as [[rs | e] [names' e']] eqn:Hq; [| discriminate].
  inversion Hrun; subst.
  exact (Hcontract h query limit thr names (eng s1) results names' e'
           Hlim Hlo Hhi Hq).
Qed.

(** *** The cached handle *)

Lemma append_or_create_cached :
  forall (chunks : list Document) (s : State) (h : handle),
    _db s = Some h ->
    _db (snd (append_or_create chunks s)) = Some h /\
    exists out,
      calls (snd (append_or_create chunks s))
        = calls s ++ [CallAddDocuments h chunks out].
Proof.
  intros chunks s h Hc.
  unfold append_or_create, try_except_ValueError, bind, ret.
  rewrite (_get_or_create_db_cached s None Hc).
  destruct (engine_call_effect (CallAddDocuments h chunks)
              (Chroma_add_documents h chunks) s) as (Hdb & Hcalls & _).
  destruct (engine_call _ _ s) as [[u | e] s2]; cbn [fst snd] in *.
  - split; [congruence | eauto].
  - destruct (is_ValueError e); cbn [fst snd].
    + assert (Hc2 : _db s2 = Some h) by congruence.
      rewrite (_get_or_create_db_cached s2 (Some chunks) Hc2). cbn [fst snd].
      split; [congruence | eauto].
    + split; [congruence | eauto].
Qed.

Lemma serve_cached :
  forall (r : Request) (s : State) (h : handle),
    _db s = Some h ->
    _db (serve config r s) = Some h /\
    exists new,
      calls (serve config r s) = calls s ++ new /\ Forall (on_handle h) new.
Proof.
  intros r s h Hc. destruct r as [documents | query limit thr]; cbn [serve].
  - destruct (splitting_step config documents) as [chunks | e] eqn:Hsp.
    + rewrite (add_documents_split_ok _ s Hsp).
      destruct (append_or_create_cached chunks s Hc) as (Hdb & out & Hcalls).
      split; [exact Hdb |].
      exists [CallAddDocuments h chunks out]. split; [exact Hcalls |].
      constructor; [reflexivity | constructor].
    + rewrite (add_documents_split_raises _ s Hsp). cbn [snd].
      split; [exact Hc |]. exists []. rewrite app_nil_r. split; constructor.
  - unfold search, bind, ret.
    rewrite (_get_or_create_db_cached s None Hc).
    destruct (engine_call_effect (CallSearch h query limit thr)
                (Chroma_similarity_search_with_relevance_scores
                   h query limit thr) s) as (Hdb & Hcalls & _).
    destruct (engine_call _ _ s) as [[rs | e] s2]; cbn [fst snd] in *;
      (split; [congruence |]);
      eexists; (split; [exact Hcalls |]);
      (constructor; [reflexivity | constructor]).
Qed.

(** C6.  Once a handle is cached, [_get_or_create_db] returns that handle
    and changes nothing (no engine call, hence no reopening or reloading);
    through any later sequence of [add_documents] and [search] calls the field
    keeps that handle, and every engine call made goes through it. *)
Theorem cached_handle_is_kept :
  forall (s : State) (h : handle),
    _db s = Some h ->
    (forall documents, _get_or_create_db documents s = (Ok h, s)) /\
    (forall requests,
        _db (serve_all config requests s) = Some h /\
        exists new,
          calls (serve_all config requests s) = calls s ++ new /\
          Forall (on_handle h) new).
Proof.
  intros s h Hc. split.
  - intros documents. now apply _get_or_create_db_cached.
  - intros requests. revert s Hc.
    induction requests as [| r requests IH]; intros s Hc.
    + cbn. split; [exact Hc |]. exists []. rewrite app_nil_r.
      split; constructor.
    + cbn [serve_all fold_left].
      destruct (serve_cached r s Hc) as (Hc1 & new1 & Hcalls1 & Hall1).
      destruct (IH _ Hc1) as (Hc2 & new2 & Hcalls2 & Hall2).
      split; [exact Hc2 |].
      exists (new1 ++ new2). split.
      * unfold serve_all in Hcalls2. rewrite Hcalls2, Hcalls1.
        now rewrite app_assoc.
      * apply Forall_app. now split.
Qed.

(** *** Splitting *)

Lemma append_or_create_count :
  forall (chunks : list Document) (s s' : State) (n : nat),
    append_or_create chunks s = (Ok n, s') -> n = List.length chunks.
Proof.
  intros chunks s s' n Hrun.
  unfold append_or_create, try_except_ValueError, bind, ret in Hrun.
  destruct (_get_or_create_db None s) as [[h | e] s1].
  - destruct (engine_call _ _ s1) as [[u | e] s2].
    + congruence.
    + destruct (is_ValueError e); [| discriminate].
      destruct (_get_or_create_db (Some chunks) s2) as [[h' | e'] s3];
        congruence.
  - destruct (is_ValueError e); [| discriminate].
    destruct (_get_or_create_db (Some chunks) s1) as [[h' | e'] s3];
      congruence.
Qed.

(** C7.  A call to [add_documents] that returns, returns the number of
    chunks the splitter (built from the configured [chunk_size] and
    [chunk_overlap]) produced for the given documents. *)
Theorem add_documents_returns_chunk_count :
  forall (documents : list Document) (s s' : State) (n : nat),
    add_documents config documents s = (Ok n, s') ->
    exists text_splitter chunks,
      RecursiveCharacterTextSplitter (chunk_size config) (chunk_overlap config)
        = Ok text_splitter /\
      split_documents text_splitter documents = Ok chunks /\
      n = List.length chunks.
Proof.
  intros documents s s' n Hrun.
  destruct (splitting_step config documents) as [chunks | e] eqn:Hsp.
  - rewrite (add_documents_split_ok _ s Hsp) in Hrun.
    unfold splitting_step in Hsp.
    destruct (RecursiveCharacterTextSplitter _ _) as [ts | e]; [| discriminate].
    exists ts, chunks. repeat split; trivial.
    now apply append_or_create_count with (s := s) (s' := s').
  - rewrite (add_documents_split_raises _ s Hsp) in Hrun. discriminate.
Qed.

Lemma split_documents_metadata :
  forall (text_splitter : splitter) (documents chunks : list Document),
    split_documents text_splitter documents = Ok chunks ->
    forall c, In c chunks ->
      exists d texts,
        In d documents /\
        split_text text_splitter (page_content d) = Ok texts /\
        In (page_content c) texts /\
        metadata c = metadata d.
Proof.
  intros ts documents. induction documents as [| d rest IH]; intros chunks Hsp c Hin.
  - cbn in Hsp. inversion Hsp; subst. contradiction.
  - cbn in Hsp.
    destruct (split_text ts (page_content d)) as [texts | e] eqn:Ht;
      [| discriminate].
    destruct (split_documents ts rest) as [tail | e] eqn:Hrest;
      [| discriminate].
    inversion Hsp; subst. apply in_app_or in Hin. destruct Hin as [Hin | Hin].
    + apply in_map_iff in Hin. destruct Hin as (t & Hc & Ht_in). subst c.
      exists d, texts. cbn. auto.
    + destruct (IH tail eq_refl c Hin) as (d' & texts' & Hd & Hs & Hp & Hm).
      exists d', texts'. cbn. auto.
Qed.

(** C8.  Every chunk the splitting step of [add_documents] produces comes
    from one of the input documents (its text is one of the pieces that
    document's text was cut into) and carries that document's metadata
    unchanged. *)
Theorem chunks_carry_parent_metadata :
  forall (documents chunks : list Document),
    splitting_step config documents = Ok chunks ->
    forall c, In c chunks ->
      exists d text_splitter texts,
        In d documents /\
        RecursiveCharacterTextSplitter (chunk_size config) (chunk_overlap config)
          = Ok text_splitter /\
        split_text text_splitter (page_content d) = Ok texts /\
        In (page_content c) texts /\
        metadata c = metadata d.
Proof.
  intros documents chunks Hsp c Hin. unfold splitting_step in Hsp.
  destruct (RecursiveCharacterTextSplitter _ _) as [ts | e]; [| discriminate].
  destruct (split_documents_metadata ts documents Hsp c Hin)
    as (d & texts & Hd & Hs & Hp & Hm).
  exists d, ts, texts. auto.
Qed.

(** C9.  When a [ValueError] is raised before [splits] is assigned, by the
    splitter's constructor or by [split_documents], the handler's read of
    [splits] fails: the call raises [UnboundLocalError] in place of the
    original error, and nothing else has happened.  When splitting completed,
    the handler has the chunks and the call is [append_or_create] on them. *)
Theorem add_documents_unbound_splits :
  forall (documents : list Document) (s : State),
    (forall msg,
        RecursiveCharacterTextSplitter (chunk_size config) (chunk_overlap config)
          = Raise (ValueError msg)
        \/ (exists text_splitter,
              RecursiveCharacterTextSplitter
                (chunk_size config) (chunk_overlap config) = Ok text_splitter /\
              split_documents text_splitter documents = Raise (ValueError msg)) ->
        add_documents config documents s
          = (Raise (UnboundLocalError "splits"), s))
    /\
    (forall chunks,
        splitting_step config documents = Ok chunks ->
        add_documents config documents s = append_or_create chunks s).
Proof.
  intros documents s. split.
  - intros msg Hraise.
    assert (Hsp : splitting_step config documents = Raise (ValueError msg)).
    { unfold splitting_step. destruct Hraise as [Hc | (ts & Hc & Hs)].
      - now rewrite Hc.
      - now rewrite Hc. }
    now rewrite (add_documents_split_raises _ s Hsp).
  - intros chunks Hsp. now apply add_documents_split_ok.
Qed.

(** *** The handler after a failed insert *)

(** Whatever the engine, a [ValueError] raised by the insert through a cached
    handle is caught: the handler finds the handle cached, inserts nothing
    and the chunk count is returned. *)
Lemma append_or_create_swallows_insert_error :
  forall (chunks : list Document) (s : State) (h : handle)
         (msg : string) (names names1 : list string) (e1 : engine),
    _db s = Some h ->
    dir s = Some names ->
    Chroma_add_documents h chunks names (eng s)
      = (Raise (ValueError msg), (names1, e1)) ->
    append_or_create chunks s
      = (Ok (List.length chunks),
         mkState (Some h) (Some names1) e1
           (calls s ++ [CallAddDocuments h chunks (Raise (ValueError msg))])).
Proof.
  intros chunks s h msg names names1 e1 Hc Hd Hadd.
  unfold append_or_create, try_except_ValueError, bind, ret.
  rewrite (_get_or_create_db_cached s None Hc).
  unfold engine_call. rewrite Hd, Hadd. cbn [is_ValueError].
  rewrite _get_or_create_db_cached with (h := h); [| exact Hc].
  now rewrite Hc.
Qed.

End Properties.

(* ------------------------------------------------------------------ *)
(** ** The reference engine meets the query contract *)

Lemma insert_ranked_Forall :
  forall (x r : Document * Q) (l : list (Document * Q)),
    by_descending_score x r ->
    Forall (by_descending_score x) l ->
    Forall (by_descending_score x) (insert_ranked r l).
Proof.
  intros x r l Hxr Hl. induction Hl as [| y l Hy Hl IH]; cbn.
  - constructor; [exact Hxr | constructor].
  - destruct (Qle_bool (snd y) (snd r)); repeat constructor; assumption.
Qed.

Lemma insert_ranked_sorted :
  forall (r : Document * Q) (l : list (Document * Q)),
    StronglySorted by_descending_score l ->
    StronglySorted by_descending_score (insert_ranked r l).
Proof.
  intros r l Hs. induction Hs as [| x l Hs IH Hx]; cbn.
  - repeat constructor.
  - destruct (Qle_bool (snd x) (snd r)) eqn:Hcmp.
    + apply Qle_bool_iff in Hcmp.
      constructor; [constructor; assumption |].
      constructor; [exact Hcmp |].
      eapply Forall_impl; [| exact Hx].
      intros y Hy. unfold by_descending_score in *.
      eapply Qle_trans; eassumption.
    + constructor; [exact IH |].
      apply insert_ranked_Forall; [| exact Hx].
      unfold by_descending_score. apply Qlt_le_weak, Qnot_le_lt.
      intros Hle. apply Qle_bool_iff in Hle. congruence.
Qed.

Lemma rank_sorted :
  forall l : list (Document * Q), StronglySorted by_descending_score (rank l).
Proof.
  induction l as [| r l IH]; cbn.
  - constructor.
  - now apply insert_ranked_sorted.
Qed.

Lemma Forall_firstn_keep :
  forall (A : Type) (P : A -> Prop) (n : nat) (l : list A),
    Forall P l -> Forall P (firstn n l).
Proof.
  intros A P n l Hl. revert n.
  induction Hl as [| x l Hx Hl IH]; intros [| n]; cbn; constructor; auto.
Qed.

Lemma StronglySorted_firstn :
  forall (A : Type) (R : A -> A -> Prop) (n : nat) (l : list A),
    StronglySorted R l -> StronglySorted R (firstn n l).
Proof.
  intros A R n l Hs. revert n.
  induction Hs as [| x l Hs IH Hx]; intros [| n]; cbn; try constructor.
  - apply IH.
  - now apply Forall_firstn_keep.
Qed.

Lemma StronglySorted_filter :
  forall (A : Type) (R : A -> A -> Prop) (f : A -> bool) (l : list A),
    StronglySorted R l -> StronglySorted R (filter f l).
Proof.
  intros A R f l Hs. induction Hs as [| x l Hs IH Hx]; cbn.
  - constructor.
  - destruct (f x); [| exact IH].
    constructor; [exact IH |].
    apply Forall_forall. intros y Hy. apply filter_In in Hy.
    rewrite Forall_forall in Hx. now apply Hx.
Qed.

Lemma filter_length_bound :
  forall (A : Type) (f : A -> bool) (l : list A),
    (List.length (filter f l) <= List.length l)%nat.
Proof.
  intros A f l. induction l as [| x l IH]; cbn; [lia |].
  destruct (f x); cbn; lia.
Qed.

Lemma memory_search_contract : @search_contract MemoryChroma.
Proof.
  intros h query k thr names e rs names' e' Hk Hlo Hhi Hq.
  cbn in Hq. inversion Hq; subst. unfold memory_search. repeat split.
  - pose proof (filter_length_bound (fun r => Qle_bool thr (snd r))
                  (firstn (Z.to_nat k)
                     (rank (map (fun d => (d, relevance query d)) e')))) as H1.
    pose proof (firstn_le_length (Z.to_nat k)
                  (rank (map (fun d => (d, relevance query d)) e'))) as H2.
    lia.
  - apply Forall_forall. intros r Hr. apply filter_In in Hr.
    now apply Qle_bool_iff.
  - apply StronglySorted_filter, StronglySorted_firstn, rank_sorted.
Qed.

Lemma scored_query_contract :
  forall (DB : Chroma) (stored : @engine DB -> list Document) (sc : Scoring),
    @search_contract (WithScoredQuery DB stored sc).
Proof.
  intros DB stored sc h query k thr names e rs names' e' Hk Hlo Hhi Hq.
  cbn in Hq. inversion Hq; subst. unfold scored_query. repeat split.
  - pose proof (filter_length_bound (fun r => Qle_bool thr (snd r))
                  (firstn (Z.to_nat k)
                     (rank (map (fun d => (d, relevance_score sc query d))
                              (stored e'))))) as H1.
    pose proof (firstn_le_length (Z.to_nat k)
                  (rank (map (fun d => (d, relevance_score sc query d))
                           (stored e')))) as H2.
    lia.
  - apply Forall_forall. intros r Hr. apply filter_In in Hr.
    now apply Qle_bool_iff.
  - apply StronglySorted_filter, StronglySorted_firstn, rank_sorted.
Qed.

(** C5.  Against an engine whose scored query is [scored_query], a [search]
    with [limit > 0] and a threshold in [[0, 1]] that returns, returns at most
    [limit] results, none scoring below the threshold, ordered by descending
    relevance score. *)
Theorem search_results_bounded :
  forall (DB : Chroma) (stored : @engine DB -> list Document) (sc : Scoring)
         (query : string) (limit : Z) (score_threshold : Q)
         (s s' : @State (WithScoredQuery DB stored sc))
         (results : list (Document * Q)),
    (0 < limit)%Z ->
    (0 <= score_threshold)%Q -> (score_threshold <= 1)%Q ->
    @search (WithScoredQuery DB stored sc) query limit score_threshold s
      = (Ok results, s') ->
    (Z.of_nat (List.length results) <= limit)%Z /\
    Forall (fun r => (score_threshold <= snd r)%Q) results /\
    StronglySorted by_descending_score results.
Proof.
  intros DB stored sc query limit thr s s' results Hlim Hlo Hhi Hrun.
  exact (@search_keeps_contract (WithScoredQuery DB stored sc)
           (@scored_query_contract DB stored sc)
           query limit thr s s' results Hlim Hlo Hhi Hrun).
Qed.

(* ------------------------------------------------------------------ *)
(** ** The methods on concrete stores *)

(** The store once [paris] has been added to a fresh instance. *)
Lemma fresh_store_after_add :
  serve sample_config (ReqAdd [paris]) fresh_store
    = mkState (Some tt) (Some ["chroma.sqlite3"%string]) [paris]
        [CallFromDocuments [paris] (Ok tt)].
Proof. reflexivity. Qed.

Lemma search_without_index_raises_fresh :
  search "What is the capital of France?" 5 (2 # 10) fresh_store
    = (Raise (ValueError no_index_msg),
       mkState None (Some []) ([] : list Document) []).
Proof.
  exact (@search_without_index_raises MemoryChroma
           "What is the capital of France?" 5%Z (2 # 10) fresh_store
           eq_refl (or_introl eq_refl)).
Defined.

Lemma search_creates_missing_directory_fresh :
  fst (search "What is the capital of France?" 5 (2 # 10) fresh_store)
    = Raise (ValueError no_index_msg) /\
  dir (snd (search "What is the capital of France?" 5 (2 # 10) fresh_store))
    = Some [].
Proof.
  apply (@search_creates_missing_directory WindowSplitter MemoryChroma
           sample_config).
  - apply reach_init.
  - reflexivity.
Defined.

Lemma open_or_create_paths_sample :
  (_get_or_create_db None existing_store
     = (Ok tt,
        mkState (Some tt) (Some ["chroma.sqlite3"%string]) [paris]
          [CallNew (Ok tt)])
   /\ _get_or_create_db (Some [alphabet]) existing_store
        = (Ok tt,
           mkState (Some tt) (Some ["chroma.sqlite3"%string]) [paris; alphabet]
             [CallNew (Ok tt); CallAddDocuments tt [alphabet] (Ok tt)]))
  /\ _get_or_create_db (Some [paris]) fresh_store
       = (Ok tt,
          mkState (Some tt) (Some ["chroma.sqlite3"%string]) [paris]
            [CallFromDocuments [paris] (Ok tt)]).
Proof.
  split.
  - destruct (@open_or_create_paths MemoryChroma existing_store eq_refl)
      as [Hload _].
    destruct (Hload ["chroma.sqlite3"%string] tt ["chroma.sqlite3"%string]
                [paris] eq_refl ltac:(discriminate) eq_refl)
      as [Hnone Hsome].
    split; [exact Hnone |].
    exact (Hsome [alphabet] ["chroma.sqlite3"%string] [paris; alphabet] eq_refl).
  - destruct (@open_or_create_paths MemoryChroma fresh_store eq_refl)
      as [_ Hcreate].
    exact (Hcreate [paris] tt ["chroma.sqlite3"%string] [paris]
             (or_introl eq_refl) eq_refl).
Defined.

(** Four chunks stored as [alphabet; digits; lyon; paris].  With limit 2 and
    threshold 6/10 the two best are returned; with limit 4 and threshold 0
    all four are, best first. *)
Lemma search_results_bounded_sample :
  ((Z.of_nat (List.length [(lyon, 6 # 6); (paris, 6 # 6)]) <= 2)%Z /\
   Forall (fun r => (6 # 10 <= snd r)%Q) [(lyon, 6 # 6); (paris, 6 # 6)] /\
   StronglySorted by_descending_score [(lyon, 6 # 6); (paris, 6 # 6)]) /\
  ((Z.of_nat (List.length [(lyon, 6 # 6); (paris, 6 # 6);
                           (alphabet, 3 # 6); (digits, 0 # 6)]) <= 4)%Z /\
   Forall (fun r => (0 <= snd r)%Q)
     [(lyon, 6 # 6); (paris, 6 # 6); (alphabet, 3 # 6); (digits, 0 # 6)] /\
   StronglySorted by_descending_score
     [(lyon, 6 # 6); (paris, 6 # 6); (alphabet, 3 # 6); (digits, 0 # 6)]).
Proof.
  split.
  - apply (@search_results_bounded MemoryChroma (fun e => e) sample_scoring
             "France" 2%Z (6 # 10) scored_store
             (snd (@search
                     (WithScoredQuery MemoryChroma (fun e => e) sample_scoring)
                     "France" 2 (6 # 10) scored_store))).
    + lia.
    + apply Qle_bool_iff. reflexivity.
    + apply Qle_bool_iff. reflexivity.
    + reflexivity.
  - apply (@search_results_bounded MemoryChroma (fun e => e) sample_scoring
             "France" 4%Z 0%Q scored_store
             (snd (@search
                     (WithScoredQuery MemoryChroma (fun e => e) sample_scoring)
                     "France" 4 0 scored_store))).
    + lia.
    + apply Qle_bool_iff. reflexivity.
    + apply Qle_bool_iff. reflexivity.
    + reflexivity.
Defined.

Lemma cached_handle_is_kept_sample :
  (forall documents,
      _get_or_create_db documents
        (serve sample_config (ReqAdd [paris]) fresh_store)
      = (Ok tt, serve sample_config (ReqAdd [paris]) fresh_store)) /\
  (forall requests,
      _db (serve_all sample_config requests
             (serve sample_config (ReqAdd [paris]) fresh_store)) = Some tt /\
      exists new,
        calls (serve_all sample_config requests
                 (serve sample_config (ReqAdd [paris]) fresh_store))
          = calls (serve sample_config (ReqAdd [paris]) fresh_store) ++ new /\
        Forall (on_handle tt) new).
Proof.
  apply (@cached_handle_is_kept WindowSplitter MemoryChroma sample_config
           (serve sample_config (ReqAdd [paris]) fresh_store) tt).
  reflexivity.
Defined.

(** Three chunks are counted although the collection then holds four. *)
Lemma add_documents_returns_chunk_count_sample :
  (exists text_splitter chunks,
      RecursiveCharacterTextSplitter 4 1 = Ok text_splitter /\
      split_documents text_splitter [alphabet] = Ok chunks /\
      3%nat = List.length chunks) /\
  List.length (eng (snd (add_documents narrow_config [alphabet] existing_store)))
    = 4%nat.
Proof.
  split.
  - apply (@add_documents_returns_chunk_count WindowSplitter MemoryChroma
             narrow_config [alphabet] existing_store
             (snd (add_documents narrow_config [alphabet] existing_store))
             3%nat).
    reflexivity.
  - reflexivity.
Defined.

Lemma chunks_carry_parent_metadata_sample :
  exists d text_splitter texts,
    In d [alphabet] /\
    RecursiveCharacterTextSplitter 4 1 = Ok text_splitter /\
    split_text text_splitter (page_content d) = Ok texts /\
    In "defg"%string texts /\
    [("source"%string, MStr "abc.txt")] = metadata d.
Proof.
  apply (@chunks_carry_parent_metadata WindowSplitter narrow_config
           [alphabet]
           [mkDocument "abcd" [("source"%string, MStr "abc.txt")];
            mkDocument "defg" [("source"%string, MStr "abc.txt")];
            mkDocument "ghij" [("source"%string, MStr "abc.txt")]]
           eq_refl
           (mkDocument "defg" [("source"%string, MStr "abc.txt")])).
  right. left. reflexivity.
Defined.

Lemma add_documents_unbound_splits_sample :
  add_documents inverted_config [paris] existing_store
    = (Raise (UnboundLocalError "splits"), existing_store)
  /\ add_documents sample_config [paris] existing_store
       = append_or_create [paris] existing_store.
Proof.
  destruct (@add_documents_unbound_splits WindowSplitter MemoryChroma
              inverted_config [paris] existing_store) as [Hraise _].
  destruct (@add_documents_unbound_splits WindowSplitter MemoryChroma
              sample_config [paris] existing_store) as [_ Hok].
  split.
  - apply (Hraise
      "Got a larger chunk overlap than chunk size, should be smaller."%string).
    left. reflexivity.
  - apply Hok. reflexivity.
Defined.

(* ------------------------------------------------------------------ *)
(** ** Where the handler catches too much

    The [except ValueError] clause is written for the no-index error of
    [_get_or_create_db], but the [try] block also covers the splitter and the
    insert through the handle. *)

(** C1.  On a directory that holds an index, the engine rejects the one chunk
    of [tagged] with a [ValueError]; [add_documents] still returns the chunk
    count 1, and the collection is what it was: the chunk is not in it. *)
Theorem add_documents_reports_rejected_chunks :
  splitting_step sample_config [tagged] = Ok [tagged] /\
  fst (add_documents sample_config [tagged] existing_store) = Ok 1%nat /\
  eng (snd (add_documents sample_config [tagged] existing_store)) = [paris] /\
  ~ In tagged (eng (snd (add_documents sample_config [tagged] existing_store))).
Proof.
  repeat split.
  intros [H | []]. discriminate H.
Qed.

(** C2.  A [ValueError] of the insert operation does not reach the caller:
    the call returns normally after the failed insert.  A [ValueError] of the
    splitter's constructor does not reach the caller either: the call raises
    [UnboundLocalError] in its place. *)
Theorem add_documents_loses_collaborator_errors :
  (calls (snd (add_documents sample_config [tagged] existing_store))
     = [CallNew (Ok tt); CallAddDocuments tt [tagged] (Raise bad_metadata)] /\
   fst (add_documents sample_config [tagged] existing_store) = Ok 1%nat) /\
  (RecursiveCharacterTextSplitter
     (chunk_size inverted_config) (chunk_overlap inverted_config)
     = Raise bad_sizes /\
   fst (add_documents inverted_config [paris] existing_store)
     = Raise (UnboundLocalError "splits")).
Proof.
  repeat split.
Qed.

(* ------------------------------------------------------------------ *)
(** ** The lifecycle of an instance *)

Section Lifecycle.

Context `{TS : TextSplitter} `{DB : Chroma}.
Variable config : Config.

(** Without a cached handle, [_get_or_create_db] ends in one of the ways
    listed by [opens]. *)
Lemma _get_or_create_db_opens :
  forall (documents : option (list Document)) (s : State),
    _db s = None ->
    opens documents s (_get_or_create_db documents s).
Proof.
  intros documents s Hc.
  unfold _get_or_create_db, engine_call, os_makedirs, os_path_exists,
    os_listdir, get_db, set_db, bind, ret, raise.
  cbn [_db dir eng calls]. rewrite Hc.
  assert (Hl : match dir s with Some names => Some names | None => Some [] end
               = Some (listing s)).
  { unfold listing. now destruct (dir s). }
  rewrite Hl. cbn -[listing].
  destruct (truthy (listing s)) eqn:Ht; cbn -[listing].
  - destruct (Chroma_new cosine (listing s) (eng s)) as [[h | e] [n1 e1]] eqn:Hn;
      cbn -[listing].
    + destruct documents as [docs |]; cbn -[listing].
      * destruct (Chroma_add_documents h docs n1 e1) as [out [n2 e2]] eqn:Ha.
        rewrite <- app_assoc. cbn [app].
        pose proof (opens_load_append s Ht Hn eq_refl Ha) as Hopen.
        destruct out; exact Hopen.
      * now apply opens_load.
    + rewrite Hc. now apply opens_load_raises.
  - assert (Hnil : listing s = [])
      by (destruct (listing s); [reflexivity | discriminate]).
    rewrite Hnil. destruct documents as [docs |]; cbn.
    + destruct (Chroma_from_documents docs cosine [] (eng s))
        as [out [n1 e1]] eqn:Hf.
      pose proof (opens_create s Hnil eq_refl Hf) as Hopen.
      destruct out; cbn; rewrite ?Hc; exact Hopen.
    + rewrite Hc. now apply opens_nothing.
Qed.

(** *** Helper facts about [_get_or_create_db] *)

Lemma opens_ok_cached :
  forall (documents : option (list Document)) (s s' : State) (h : handle),
    opens documents s (Ok h, s') -> _db s' = Some h.
Proof.
  intros documents s s' h Hop. inversion Hop; subst; try reflexivity.
  - destruct out; [| discriminate].
    match goal with H : Ok _ = Ok _ |- _ => inversion H; subst end.
    reflexivity.
Qed.

Lemma goc_ok_cached :
  forall (documents : option (list Document)) (s s' : State) (h : handle),
    _get_or_create_db documents s = (Ok h, s') -> _db s' = Some h.
Proof.
  intros documents s s' h Hrun. destruct (_db s) as [h0 |] eqn:Hc.
  - rewrite (_get_or_create_db_cached s documents Hc) in Hrun.
    inversion Hrun; subst. exact Hc.
  - pose proof (_get_or_create_db_opens documents s Hc) as Hop.
    rewrite Hrun in Hop. exact (opens_ok_cached Hop).
Qed.

(** With no documents given, [_get_or_create_db] calls the engine at most
    once, for the load. *)
Lemma goc_none_calls :
  forall (s : State),
    calls (snd (_get_or_create_db None s)) = calls s \/
    exists out, calls (snd (_get_or_create_db None s)) = calls s ++ [CallNew out].
Proof.
  intros s. destruct (_db s) as [h0 |] eqn:Hc.
  - rewrite (_get_or_create_db_cached s None Hc). now left.
  - pose proof (_get_or_create_db_opens None s Hc) as Hop.
    destruct (_get_or_create_db None s) as [r s1].
    inversion Hop; subst; cbn; try discriminate; eauto.
Qed.

(** *** [_get_or_create_db] *)

(** X1.  A handle that [_get_or_create_db] returns is the one the field
    [_db] holds when the call ends, on the fast path and on the load, append
    and create paths alike. *)
Theorem _get_or_create_db_caches_what_it_returns :
  forall (documents : option (list Document)) (s s' : State) (h : handle),
    _get_or_create_db documents s = (Ok h, s') ->
    _db s' = Some h.
Proof.
  intros documents s s' h Hrun. exact (goc_ok_cached documents s Hrun).
Qed.

Lemma listing_of_dir :
  forall (s : State) (names : list string),
    dir s = Some names -> listing s = names.
Proof.
  intros s names Hd. unfold listing. now rewrite Hd.
Qed.

Lemma listing_of_empty :
  forall (s : State),
    dir s = None \/ dir s = Some [] -> listing s = [].
Proof.
  intros s [Hd | Hd]; unfold listing; now rewrite Hd.
Qed.

Lemma truthy_nonempty :
  forall (A : Type) (l : list A), l <> [] -> truthy l = true.
Proof.
  intros A [| x l] Hne; [contradiction | reflexivity].
Qed.

(** X2.  What a failure of [_get_or_create_db] leaves in [_db], from a state
    without handle.  If the load raises, or the creation raises, the error
    reaches the caller and no handle is cached.  If the load returns and the
    insert of the given documents raises, the error reaches the caller and
    the loaded handle is cached all the same. *)
Theorem _get_or_create_db_failure_and_cache :
  forall (documents : option (list Document)) (s : State),
    _db s = None ->
    (forall names e names1 e1,
        dir s = Some names -> names <> [] ->
        Chroma_new cosine names (eng s) = (Raise e, (names1, e1)) ->
        _get_or_create_db documents s
          = (Raise e,
             mkState None (Some names1) e1 (calls s ++ [CallNew (Raise e)])))
    /\
    (forall names h names1 e1 docs e names2 e2,
        dir s = Some names -> names <> [] ->
        documents = Some docs ->
        Chroma_new cosine names (eng s) = (Ok h, (names1, e1)) ->
        Chroma_add_documents h docs names1 e1 = (Raise e, (names2, e2)) ->
        _get_or_create_db documents s
          = (Raise e,
             mkState (Some h) (Some names2) e2
               (calls s
                ++ [CallNew (Ok h); CallAddDocuments h docs (Raise e)])))
    /\
    (forall docs e names1 e1,
        dir s = None \/ dir s = Some [] ->
        documents = Some docs ->
        Chroma_from_documents docs cosine [] (eng s)
          = (Raise e, (names1, e1)) ->
        _get_or_create_db documents s
          = (Raise e,
             mkState None (Some names1) e1
               (calls s ++ [CallFromDocuments docs (Raise e)]))).
Proof.
  intros documents s Hc.
  pose proof (_get_or_create_db_opens documents s Hc) as Hop.
  destruct (_get_or_create_db documents s) as [r s1].
  repeat split.
  - intros names e names1 e1 Hd Hne Hnew.
    rewrite <- (listing_of_dir s Hd) in Hnew, Hne.
    inversion Hop; subst;
      repeat match goal with
             | H : Chroma_new _ _ _ = _ |- _ =>
                 rewrite Hnew in H; inversion H; subst; clear H
             | H : listing s = [] |- _ => contradiction
             end;
      reflexivity.
  - intros names h names1 e1 docs e names2 e2 Hd Hne Hdocs Hnew Hadd.
    rewrite <- (listing_of_dir s Hd) in Hnew, Hne.
    inversion Hop; subst; try discriminate;
      repeat match goal with
             | H : Chroma_new _ _ _ = _ |- _ =>
                 rewrite Hnew in H; inversion H; subst; clear H
             | H : Some _ = Some _ |- _ => inversion H; subst; clear H
             | H : Chroma_add_documents _ _ _ _ = _ |- _ =>
                 rewrite Hadd in H; inversion H; subst; clear H
             | H : listing s = [] |- _ => contradiction
             end;
      reflexivity.
  - intros docs e names1 e1 Hd Hdocs Hfrom.
    pose proof (listing_of_empty s Hd) as Hl.
    inversion Hop; subst; try discriminate;
      repeat match goal with
             | H : truthy (listing s) = true |- _ =>
                 rewrite Hl in H; discriminate
             | H : Some _ = Some _ |- _ => inversion H; subst; clear H
             | H : Chroma_from_documents _ _ _ _ = _ |- _ =>
                 rewrite Hfrom in H; inversion H; subst; clear H
             end;
      reflexivity.
Qed.

(** *** [search] *)

(** X3.  [search] hands no documents to the engine: the calls it makes are
    at most a load followed by a query, never an insert or a creation. *)
Theorem search_hands_over_no_documents :
  forall (query : string) (limit : Z) (score_threshold : Q) (s : State),
    exists new,
      calls (snd (search query limit score_threshold s)) = calls s ++ new /\
      Forall (fun c => call_documents c = None) new /\
      (List.length new <= 2)%nat.
Proof.
  intros query limit thr s. unfold search, bind, ret.
  pose proof (goc_none_calls s) as Hcalls.
  destruct (_get_or_create_db None s) as [[h | e] s1]; cbn [fst snd] in *.
  - destruct (engine_call_effect (CallSearch h query limit thr)
                (Chroma_similarity_search_with_relevance_scores
                   h query limit thr) s1) as (_ & Hlog & _).
    destruct (engine_call _ _ s1) as [r s2]; cbn [fst snd] in *.
    assert (Hs2 : exists new,
               calls s2 = calls s ++ new /\
               Forall (fun c => call_documents c = None) new /\
               (List.length new <= 2)%nat).
    { destruct Hcalls as [H1 | [out H1]]; rewrite Hlog, H1.
      - eexists. split; [reflexivity |]. split; [| cbn; lia].
        repeat constructor.
      - rewrite <- app_assoc. eexists. split; [reflexivity |].
        split; [| cbn; lia]. repeat constructor. }
    destruct r; exact Hs2.
  - destruct Hcalls as [H1 | [out H1]]; rewrite H1.
    + exists []. rewrite app_nil_r. repeat split; [constructor | cbn; lia].
    + eexists. split; [reflexivity |]. split; [| cbn; lia].
      repeat constructor.
Qed.


(** X5.  A [search] that raises ends in one of three ways.  It failed
    before reaching the engine: no engine call, no handle cached.  Or the load
    raised: that exception is what the caller gets, and no handle is cached.
    Or the query raised, through the handle that is cached when the call
    ends: that exception is what the caller gets.  An engine exception is
    never replaced or wrapped. *)
Theorem search_error_origin :
  forall (query : string) (limit : Z) (score_threshold : Q)
         (s s' : State) (e : exn),
    search query limit score_threshold s = (Raise e, s') ->
    (calls s' = calls s /\ _db s' = None) \/
    (calls s' = calls s ++ [CallNew (Raise e)] /\ _db s' = None) \/
    (exists h,
        _db s' = Some h /\
        (calls s'
           = calls s ++ [CallSearch h query limit score_threshold (Raise e)]
         \/
         calls s'
           = calls s ++ [CallNew (Ok h);
                         CallSearch h query limit score_threshold (Raise e)])).
Proof.
  intros query limit thr s s' e Hrun. unfold search, bind, ret in Hrun.
  destruct (_get_or_create_db None s) as [[h | e0] s1] eqn:Hgoc.
  - pose proof (goc_ok_cached None s Hgoc) as Hc1.
    destruct (engine_call_effect (CallSearch h query limit thr)
                (Chroma_similarity_search_with_relevance_scores
                   h query limit thr) s1) as (Hdb & Hlog & _).
    destruct (engine_call _ _ s1) as [[rs | e1] s2]; [discriminate |].
    inversion Hrun; subst. cbn [fst snd] in *.
    right. right. exists h. split; [congruence |].
    destruct (_db s) as [h0 |] eqn:Hc.
    + rewrite (_get_or_create_db_cached s None Hc) in Hgoc.
      inversion Hgoc; subst. left. exact Hlog.
    + pose proof (_get_or_create_db_opens None s Hc) as Hop.
      rewrite Hgoc in Hop. inversion Hop; subst; try discriminate.
      right. rewrite Hlog. cbn [calls]. now rewrite <- app_assoc.
  - inversion Hrun; subst.
    destruct (_db s) as [h0 |] eqn:Hc.
    + rewrite (_get_or_create_db_cached s None Hc) in Hgoc. discriminate.
    + pose proof (_get_or_create_db_opens None s Hc) as Hop.
      rewrite Hgoc in Hop. inversion Hop; subst; try discriminate.
      * right. left. split; reflexivity.
      * left. split; reflexivity.
Qed.

(** *** [add_documents] *)

Lemma append_or_create_ok_cached :
  forall (chunks : list Document) (s s' : State) (n : nat),
    append_or_create chunks s = (Ok n, s') ->
    exists h, _db s' = Some h.
Proof.
  intros chunks s s' n Hrun.
  unfold append_or_create, try_except_ValueError, bind, ret in Hrun.
  assert (Hfallback : forall s1,
             match _get_or_create_db (Some chunks) s1 with
             | (Ok _, s2) => (Ok (List.length chunks), s2)
             | (Raise e, s2) => (Raise e, s2)
             end = (Ok n, s') ->
             exists h, _db s' = Some h).
  { intros s1 H.
    destruct (_get_or_create_db (Some chunks) s1) as [[h | e] s2] eqn:Hgoc;
      [| discriminate].
    inversion H; subst. exists h. exact (goc_ok_cached _ s1 Hgoc). }
  destruct (_get_or_create_db None s) as [[h | e] s1] eqn:Hgoc.
  - pose proof (goc_ok_cached None s Hgoc) as Hc1.
    destruct (engine_call_effect (CallAddDocuments h chunks)
                (Chroma_add_documents h chunks) s1) as (Hdb & _ & _).
    destruct (engine_call _ _ s1) as [[u | e] s2]; cbn [fst snd] in *.
    + inversion Hrun; subst. exists h. congruence.
    + destruct (is_ValueError e); [| discriminate]. now apply (Hfallback s2).
  - destruct (is_ValueError e); [| discriminate]. now apply (Hfallback s1).
Qed.

(** X6.  After an [add_documents] that returned, the instance holds a
    handle, whichever path was taken. *)
Theorem add_documents_success_caches_handle :
  forall (documents : list Document) (s s' : State) (n : nat),
    add_documents config documents s = (Ok n, s') ->
    exists h, _db s' = Some h.
Proof.
  intros documents s s' n Hrun.
  destruct (splitting_step config documents) as [chunks | e] eqn:Hsp.
  - rewrite (add_documents_split_ok config documents s Hsp) in Hrun.
    exact (append_or_create_ok_cached chunks s Hrun).
  - rewrite (add_documents_split_raises config documents s Hsp) in Hrun. discriminate.
Qed.

(** The engine calls of [_get_or_create_db(chunks)]: at most one of them
    carries documents, and it carries [chunks]. *)
Lemma goc_some_calls :
  forall (chunks : list Document) (s : State),
    exists new,
      calls (snd (_get_or_create_db (Some chunks) s)) = calls s ++ new /\
      (forall c d, In c new -> call_documents c = Some d -> d = chunks) /\
      (List.length (filter carries_documents new) <= 1)%nat.
Proof.
  intros chunks s. destruct (_db s) as [h0 |] eqn:Hc.
  - rewrite (_get_or_create_db_cached s (Some chunks) Hc). exists [].
    rewrite app_nil_r. repeat split; [intros c d [] | cbn; lia].
  - pose proof (_get_or_create_db_opens (Some chunks) s Hc) as Hop.
    destruct (_get_or_create_db (Some chunks) s) as [r s1].
    inversion Hop; subst; try discriminate; cbn [snd calls];
      (eexists; split; [reflexivity |]; split;
       [ intros c d Hin Hd; cbn in Hin;
         repeat (destruct Hin as [Hin | Hin]; [subst c; cbn in Hd |]);
         try contradiction; congruence
       | cbn; lia ]).
Qed.

Lemma filter_carries_none :
  forall pre : list Call,
    Forall (fun c => call_documents c = None) pre ->
    filter carries_documents pre = [].
Proof.
  intros pre Hno. induction Hno as [| c pre Hc Hno IH]; cbn; [reflexivity |].
  unfold carries_documents at 1. now rewrite Hc.
Qed.

Lemma append_or_create_calls :
  forall (chunks : list Document) (s : State),
    exists new,
      calls (snd (append_or_create chunks s)) = calls s ++ new /\
      (forall c d, In c new -> call_documents c = Some d -> d = chunks) /\
      (List.length (filter carries_documents new) <= 1)%nat.
Proof.
  intros chunks s.
  unfold append_or_create, try_except_ValueError, bind, ret.
  pose proof (goc_none_calls s) as Hnone.
  assert (Hpre : forall s1,
             snd (_get_or_create_db None s) = s1 ->
             exists pre, calls s1 = calls s ++ pre /\
                         Forall (fun c => call_documents c = None) pre).
  { intros s1 <-. destruct Hnone as [H | [out H]]; rewrite H.
    - exists []. rewrite app_nil_r. split; constructor.
    - eexists. split; [reflexivity |]. repeat constructor. }
  assert (Hfallback : forall s1 pre,
             calls s1 = calls s ++ pre ->
             Forall (fun c => call_documents c = None) pre ->
             exists new,
               calls (snd (match _get_or_create_db (Some chunks) s1 with
                           | (Ok _, s2) => (Ok (List.length chunks), s2)
                           | (Raise e, s2) => (Raise e, s2)
                           end)) = calls s ++ new /\
               (forall c d, In c new -> call_documents c = Some d ->
                            d = chunks) /\
               (List.length (filter carries_documents new) <= 1)%nat).
  { intros s1 pre Hlog Hno.
    destruct (goc_some_calls chunks s1) as (new & Hnew & Hdocs & Hcount).
    assert (Hs2 : calls (snd (match _get_or_create_db (Some chunks) s1 with
                              | (Ok _, s2) => (Ok (List.length chunks), s2)
                              | (Raise e, s2) => (Raise e, s2)
                              end))
                  = calls (snd (_get_or_create_db (Some chunks) s1))).
    { destruct (_get_or_create_db (Some chunks) s1) as [[h | e] s2];
        reflexivity. }
    rewrite Hs2, Hnew, Hlog, <- app_assoc.
    exists (pre ++ new). split; [reflexivity |]. split.
    - intros c d Hin Hd. apply in_app_or in Hin. destruct Hin as [Hin | Hin].
      + rewrite Forall_forall in Hno. rewrite (Hno c Hin) in Hd. discriminate.
      + eauto.
    - rewrite filter_app, length_app.
      rewrite (filter_carries_none Hno). cbn. lia. }
  destruct (_get_or_create_db None s) as [[h | e] s1] eqn:Hgoc.
  - destruct (Hpre s1 eq_refl) as (pre & Hlog & Hno).
    pose proof (goc_ok_cached None s Hgoc) as Hc1.
    destruct (engine_call_effect (CallAddDocuments h chunks)
                (Chroma_add_documents h chunks) s1) as (Hdb & Hlog2 & _).
    destruct (engine_call _ _ s1) as [r s2]; cbn [fst snd] in *.
    assert (Hs2 : exists new,
               calls s2 = calls s ++ new /\
               (forall c d, In c new -> call_documents c = Some d ->
                            d = chunks) /\
               (List.length (filter carries_documents new) <= 1)%nat).
    { rewrite Hlog2, Hlog, <- app_assoc.
      eexists. split; [reflexivity |]. split.
      - intros c d Hin Hd. apply in_app_or in Hin. destruct Hin as [Hin | Hin].
        + rewrite Forall_forall in Hno. rewrite (Hno c Hin) in Hd. discriminate.
        + destruct Hin as [<- | []]. cbn in Hd. congruence.
      - rewrite filter_app, length_app.
        rewrite (filter_carries_none Hno). cbn. lia. }
    destruct r as [u | e]; [exact Hs2 |].
    destruct (is_ValueError e); [| exact Hs2].
    assert (Hc2 : _db s2 = Some h) by congruence.
    rewrite (_get_or_create_db_cached s2 (Some chunks) Hc2). exact Hs2.
  - destruct (Hpre s1 eq_refl) as (pre & Hlog & Hno).
    destruct (is_ValueError e).
    + exact (Hfallback s1 pre Hlog Hno).
    + cbn [snd]. exists pre. split; [exact Hlog |]. split.
      * intros c d Hin Hd. rewrite Forall_forall in Hno.
        rewrite (Hno c Hin) in Hd. discriminate.
      * rewrite (filter_carries_none Hno). cbn. lia.
Qed.

(** X7.  The chunks are handed to the engine at most once per call: among
    the engine calls of one [add_documents], at most one carries documents
    (an insert or a creation), and what it carries is exactly the list the
    splitting step produced. *)
Theorem add_documents_hands_over_chunks_once :
  forall (documents : list Document) (s : State),
    exists new,
      calls (snd (add_documents config documents s)) = calls s ++ new /\
      (forall c d, In c new -> call_documents c = Some d ->
                   splitting_step config documents = Ok d) /\
      (List.length (filter carries_documents new) <= 1)%nat.
Proof.
  intros documents s.
  destruct (splitting_step config documents) as [chunks | e] eqn:Hsp.
  - rewrite (add_documents_split_ok config documents s Hsp).
    destruct (append_or_create_calls chunks s) as (new & Hlog & Hdocs & Hcount).
    exists new. split; [exact Hlog |]. split; [| exact Hcount].
    intros c d Hin Hd. now rewrite (Hdocs c d Hin Hd).
  - rewrite (add_documents_split_raises config documents s Hsp). cbn [snd]. exists [].
    rewrite app_nil_r. repeat split; [intros c d [] | cbn; lia].
Qed.

(** X8.  First ingestion.  On an instance without handle whose directory
    is absent or empty, [add_documents] reaches the engine exactly once, to
    create the index from the chunks; when that creation returns, the call
    returns the chunk count with the new handle cached. *)
Theorem add_documents_creates_on_empty_directory :
  forall (documents chunks : list Document) (s : State)
         (h : handle) (names1 : list string) (e1 : engine),
    _db s = None ->
    dir s = None \/ dir s = Some [] ->
    splitting_step config documents = Ok chunks ->
    Chroma_from_documents chunks cosine [] (eng s) = (Ok h, (names1, e1)) ->
    add_documents config documents s
      = (Ok (List.length chunks),
         mkState (Some h) (Some names1) e1
           (calls s ++ [CallFromDocuments chunks (Ok h)])).
Proof.
  intros documents chunks s h names1 e1 Hc Hd Hsp Hfrom.
  rewrite (add_documents_split_ok config documents s Hsp).
  unfold append_or_create, try_except_ValueError, bind at 1 2.
  rewrite (_get_or_create_db_nothing s Hc Hd). cbn [is_ValueError].
  unfold bind, ret.
  pose proof (_get_or_create_db_opens (Some chunks)
                (mkState None (Some []) (eng s) (calls s)) eq_refl) as Hop.
  destruct (_get_or_create_db (Some chunks) _) as [r s1].
  inversion Hop; subst; try discriminate.
  match goal with H : Some _ = Some _ |- _ => inversion H; subst end.
  cbn [eng calls] in *.
  match goal with
  | H : Chroma_from_documents _ _ _ _ = _ |- _ =>
      rewrite Hfrom in H; inversion H; subst
  end.
  reflexivity.
Qed.

(** X9.  First use on an existing index.  On an instance without handle
    whose directory is not empty, [add_documents] loads the index and then
    inserts the chunks through the loaded handle: two engine calls, no
    creation; when both return, the call returns the chunk count. *)
Theorem add_documents_loads_then_appends :
  forall (documents chunks : list Document) (s : State) (h : handle)
         (names names1 names2 : list string) (e1 e2 : engine),
    _db s = None ->
    dir s = Some names -> names <> [] ->
    splitting_step config documents = Ok chunks ->
    Chroma_new cosine names (eng s) = (Ok h, (names1, e1)) ->
    Chroma_add_documents h chunks names1 e1 = (Ok tt, (names2, e2)) ->
    add_documents config documents s
      = (Ok (List.length chunks),
         mkState (Some h) (Some names2) e2
           (calls s ++ [CallNew (Ok h); CallAddDocuments h chunks (Ok tt)])).
Proof.
  intros documents chunks s h names names1 names2 e1 e2
         Hc Hd Hne Hsp Hnew Hadd.
  rewrite (add_documents_split_ok config documents s Hsp).
  unfold append_or_create, try_except_ValueError, bind, ret.
  pose proof (_get_or_create_db_opens None s Hc) as Hop.
  assert (Hl : listing s = names) by (unfold listing; now rewrite Hd).
  destruct (_get_or_create_db None s) as [r s1].
  inversion Hop; subst r s1; try discriminate.
  - match goal with
    | H : Chroma_new _ _ _ = (Raise _, _) |- _ =>
        rewrite Hl, Hnew in H; discriminate
    end.
  - match goal with
    | H : Chroma_new _ _ _ = (Ok _, _) |- _ =>
        rewrite Hl, Hnew in H; inversion H; subst
    end.
    unfold engine_call. cbn [_db dir eng calls]. rewrite Hadd.
    now rewrite <- app_assoc.
  - match goal with
    | H : listing s = [] |- _ => rewrite Hl in H; contradiction
    end.
Qed.

(** X10.  With a handle cached and splitting completed, [add_documents] can
    fail in one way only: the insert raised an exception that is not a
    [ValueError].  That exception is what the caller gets, the insert is the
    only engine call made, and the handle stays cached. *)
Theorem add_documents_error_origin :
  forall (documents chunks : list Document) (s s' : State)
         (h : handle) (e : exn),
    _db s = Some h ->
    splitting_step config documents = Ok chunks ->
    add_documents config documents s = (Raise e, s') ->
    is_ValueError e = false /\
    _db s' = Some h /\
    calls s' = calls s ++ [CallAddDocuments h chunks (Raise e)].
Proof.
  intros documents chunks s s' h e Hc Hsp Hrun.
  rewrite (add_documents_split_ok config documents s Hsp) in Hrun.
  unfold append_or_create, try_except_ValueError, bind, ret in Hrun.
  rewrite (_get_or_create_db_cached s None Hc) in Hrun.
  destruct (engine_call_effect (CallAddDocuments h chunks)
              (Chroma_add_documents h chunks) s) as (Hdb & Hlog & _).
  destruct (engine_call _ _ s) as [[u | e1] s2]; cbn [fst snd] in *;
    [discriminate |].
  destruct (is_ValueError e1) eqn:Hve.
  - assert (Hc2 : _db s2 = Some h) by congruence.
    rewrite (_get_or_create_db_cached s2 (Some chunks) Hc2) in Hrun.
    discriminate.
  - inversion Hrun; subst. repeat split; [exact Hve | congruence | exact Hlog].
Qed.

(** X11.  Exceptions that are not [ValueError] pass through [add_documents]
    unchanged: one raised while splitting leaves the state untouched, one
    raised by the insert through a cached handle leaves the handle cached and
    is not followed by any further engine call. *)
Theorem add_documents_propagates_other_errors :
  forall (documents : list Document) (s : State) (e : exn),
    is_ValueError e = false ->
    (splitting_step config documents = Raise e ->
     add_documents config documents s = (Raise e, s)) /\
    (forall chunks h names names1 e1,
        splitting_step config documents = Ok chunks ->
        _db s = Some h ->
        dir s = Some names ->
        Chroma_add_documents h chunks names (eng s)
          = (Raise e, (names1, e1)) ->
        add_documents config documents s
          = (Raise e,
             mkState (Some h) (Some names1) e1
               (calls s ++ [CallAddDocuments h chunks (Raise e)]))).
Proof.
  intros documents s e Hve. split.
  - intros Hsp. rewrite (add_documents_split_raises config documents s Hsp).
    now rewrite Hve.
  - intros chunks h names names1 e1 Hsp Hc Hd Hadd.
    rewrite (add_documents_split_ok config documents s Hsp).
    unfold append_or_create, try_except_ValueError, bind, ret.
    rewrite (_get_or_create_db_cached s None Hc).
    unfold engine_call. rewrite Hd, Hadd, Hve, Hc. reflexivity.
Qed.


(** *** The call log over the life of an instance *)

Lemma opens_single_open :
  forall (documents : option (list Document)) (s : State)
         (out : result handle * State),
    _db s = None ->
    single_open s ->
    opens documents s out ->
    single_open (snd out).
Proof.
  intros documents s out Hc Hinv Hop.
  unfold single_open in Hinv. rewrite Hc in Hinv.
  inversion Hop; subst; unfold single_open; cbn [snd _db calls].
  - apply Forall_app. split; [exact Hinv | repeat constructor].
  - exists (calls s), (CallNew (Ok h)), []. repeat split; trivial.
  - exists (calls s), (CallNew (Ok h)), [CallAddDocuments h docs out0].
    repeat split; trivial. repeat constructor.
  - exact Hinv.
  - destruct out0 as [h | e].
    + exists (calls s), (CallFromDocuments docs (Ok h)), [].
      repeat split; trivial.
    + apply Forall_app. split; [exact Hinv | repeat constructor].
Qed.

Lemma goc_single_open :
  forall (documents : option (list Document)) (s : State),
    single_open s -> single_open (snd (_get_or_create_db documents s)).
Proof.
  intros documents s Hinv. destruct (_db s) as [h |] eqn:Hc.
  - now rewrite (_get_or_create_db_cached s documents Hc).
  - exact (opens_single_open Hc Hinv (_get_or_create_db_opens documents s Hc)).
Qed.

Lemma engine_call_single_open :
  forall (A : Type) (ev : result A -> Call)
         (op : list string -> engine -> result A * (list string * engine))
         (s : State) (h : handle),
    _db s = Some h ->
    (forall r, on_handle h (ev r)) ->
    single_open s ->
    single_open (snd (engine_call ev op s)).
Proof.
  intros A ev op s h Hc Hev Hinv.
  destruct (engine_call_effect ev op s) as (Hdb & Hlog & _).
  unfold single_open in *. rewrite Hdb, Hlog, Hc in *.
  destruct Hinv as (before & c & after & Hcalls & Hbefore & Hopen & Hafter).
  exists before, c, (after ++ [ev (fst (engine_call ev op s))]).
  repeat split; trivial.
  - rewrite Hcalls, <- app_assoc. reflexivity.
  - apply Forall_app. split; [exact Hafter | repeat constructor; apply Hev].
Qed.

Lemma append_or_create_single_open :
  forall (chunks : list Document) (s : State),
    single_open s -> single_open (snd (append_or_create chunks s)).
Proof.
  intros chunks s Hinv.
  assert (Hfallback : forall s1, single_open s1 ->
            single_open
              (snd (bind (_get_or_create_db (Some chunks))
                      (fun _ => ret (List.length chunks)) s1))).
  { intros s1 H1. unfold bind, ret.
    pose proof (@goc_single_open (Some chunks) s1 H1) as H3.
    destruct (_get_or_create_db (Some chunks) s1) as [[h' | e'] s3];
      exact H3. }
  unfold append_or_create, try_except_ValueError.
  unfold bind at 1 2. unfold ret at 1.
  pose proof (@goc_single_open None s Hinv) as H1.
  destruct (_get_or_create_db None s) as [[h | e] s1] eqn:Hgoc;
    cbn [fst snd] in H1.
  - pose proof (goc_ok_cached None s Hgoc) as Hc1.
    pose proof (@engine_call_single_open unit
                  (CallAddDocuments h chunks) (Chroma_add_documents h chunks)
                  s1 h Hc1 (fun _ => eq_refl) H1) as H2.
    destruct (engine_call _ _ s1) as [[u | e] s2]; cbn [fst snd] in H2.
    + exact H2.
    + destruct (is_ValueError e); [now apply Hfallback | exact H2].
  - destruct (is_ValueError e); [now apply Hfallback | exact H1].
Qed.

Lemma serve_single_open :
  forall (r : Request) (s : State),
    single_open s -> single_open (serve config r s).
Proof.
  intros r s Hinv. destruct r as [documents | query limit thr]; cbn [serve].
  - destruct (splitting_step config documents) as [chunks | e] eqn:Hsp.
    + rewrite (add_documents_split_ok config documents s Hsp).
      now apply append_or_create_single_open.
    + now rewrite (add_documents_split_raises config documents s Hsp).
  - unfold search, bind, ret.
    pose proof (@goc_single_open None s Hinv) as H1.
    destruct (_get_or_create_db None s) as [[h | e] s1] eqn:Hgoc;
      cbn [fst snd] in H1; [| exact H1].
    pose proof (goc_ok_cached None s Hgoc) as Hc1.
    pose proof (@engine_call_single_open _
                  (CallSearch h query limit thr)
                  (Chroma_similarity_search_with_relevance_scores
                     h query limit thr)
                  s1 h Hc1 (fun _ => eq_refl) H1) as H2.
    destruct (engine_call _ _ s1) as [[rs | e] s2]; exact H2.
Qed.

(** X13.  Over the whole life of an instance at most one load or creation
    succeeds.  While no handle is cached, every engine call so far was a load
    or a creation that raised; once handle [h] is cached, the log is: such
    failures, then the one load or creation that returned [h], then only
    inserts and queries through [h]. *)
Theorem reachable_single_open :
  forall s : State, reachable config s -> single_open s.
Proof.
  induction 1 as [d e | r s Hr IH].
  - unfold single_open. cbn. constructor.
  - now apply serve_single_open.
Qed.

(** X14.  Ingest, then query.  On the state a successful [add_documents]
    leaves, [search] makes exactly one engine call, the query through the
    cached handle: it neither loads nor creates anything. *)
Theorem search_after_add_documents_only_queries :
  forall (documents : list Document) (s s1 : State) (n : nat)
         (query : string) (limit : Z) (score_threshold : Q),
    add_documents config documents s = (Ok n, s1) ->
    exists h out,
      _db s1 = Some h /\
      calls (snd (search query limit score_threshold s1))
        = calls s1 ++ [CallSearch h query limit score_threshold out] /\
      _db (snd (search query limit score_threshold s1)) = Some h.
Proof.
  intros documents s s1 n query limit thr Hrun.
  assert (Hc : exists h, _db s1 = Some h).
  { destruct (splitting_step config documents) as [chunks | e] eqn:Hsp.
    - rewrite (add_documents_split_ok config documents s Hsp) in Hrun.
      exact (append_or_create_ok_cached chunks s Hrun).
    - rewrite (add_documents_split_raises config documents s Hsp) in Hrun.
      discriminate. }
  destruct Hc as [h Hc]. exists h.
  unfold search, bind, ret.
  rewrite (_get_or_create_db_cached s1 None Hc).
  destruct (engine_call_effect (CallSearch h query limit thr)
              (Chroma_similarity_search_with_relevance_scores
                 h query limit thr) s1) as (Hdb & Hlog & _).
  destruct (engine_call _ _ s1) as [[rs | e] s2]; cbn [fst snd] in *;
    eexists; (split; [exact Hc |]); (split; [exact Hlog | congruence]).
Qed.

(** X17.  Ingest twice.  On the state a successful [add_documents] leaves,
    a further [add_documents] makes exactly one engine call: the insert of its
    own chunks through the cached handle.  Nothing is loaded or created
    again, and the handle stays. *)
Theorem add_documents_twice_appends :
  forall (first second chunks : list Document) (s s1 : State) (n : nat),
    add_documents config first s = (Ok n, s1) ->
    splitting_step config second = Ok chunks ->
    exists h out,
      _db s1 = Some h /\
      calls (snd (add_documents config second s1))
        = calls s1 ++ [CallAddDocuments h chunks out] /\
      _db (snd (add_documents config second s1)) = Some h.
Proof.
  intros first second chunks s s1 n Hrun Hsp.
  assert (Hc : exists h, _db s1 = Some h).
  { destruct (splitting_step config first) as [chunks1 | e] eqn:Hsp1.
    - rewrite (add_documents_split_ok config first s Hsp1) in Hrun.
      exact (append_or_create_ok_cached chunks1 s Hrun).
    - rewrite (add_documents_split_raises config first s Hsp1) in Hrun.
      discriminate. }
  destruct Hc as [h Hc].
  rewrite (add_documents_split_ok config second s1 Hsp).
  destruct (append_or_create_cached chunks s1 Hc) as (Hdb & out & Hlog).
  exists h, out. auto.
Qed.

End Lifecycle.

(* ------------------------------------------------------------------ *)
(** ** The persistence path of a new instance *)

Lemma append_nonempty_right :
  forall a b : string, b <> ""%string -> String.append a b <> ""%string.
Proof.
  intros a b Hb. destruct a as [| c a]; cbn; [exact Hb | discriminate].
Qed.

Lemma ends_with_sep_last :
  forall (pre : string) (c : ascii),
    ends_with_sep (String.append pre (String c "")) = Ascii.eqb c sep.
Proof.
  induction pre as [| c0 pre IH]; intros c; [reflexivity |].
  cbn [String.append ends_with_sep].
  rewrite IH. destruct pre; reflexivity.
Qed.

Lemma eqb_empty_last :
  forall (pre : string) (c : ascii),
    String.eqb (String.append pre (String c "")) "" = false.
Proof.
  intros pre c. destruct pre; reflexivity.
Qed.

(** X15.  The [persist_directory] of a new instance is never the empty
    string.  A non-empty argument is kept as given.  [None] and the empty
    string both fall back to the directory [chromadb] under the working
    directory: joined with one separator, or with none when the working
    directory is empty or already ends in one. *)
Theorem init_persist_directory_cases :
  forall (persist_directory : option string) (cwd : string),
    init_persist_directory persist_directory cwd <> ""%string /\
    (forall p, persist_directory = Some p -> p <> ""%string ->
               init_persist_directory persist_directory cwd = p) /\
    (persist_directory = None \/ persist_directory = Some ""%string ->
     (cwd = ""%string ->
      init_persist_directory persist_directory cwd = "chromadb"%string) /\
     (forall pre,
         cwd = String.append pre "/" ->
         init_persist_directory persist_directory cwd
           = String.append cwd "chromadb") /\
     (forall pre c,
         cwd = String.append pre (String c "") -> c <> sep ->
         init_persist_directory persist_directory cwd
           = String.append cwd "/chromadb")).
Proof.
  intros persist_directory cwd.
  assert (Hdefault : get_vectorstore_path cwd
                     = if (String.eqb cwd "" || ends_with_sep cwd)%bool
                       then String.append cwd "chromadb"
                       else String.append cwd "/chromadb").
  { unfold get_vectorstore_path, os_path_join. cbn [starts_with_sep].
    replace (Ascii.eqb "c" sep) with false by reflexivity. reflexivity. }
  assert (Hne : get_vectorstore_path cwd <> ""%string).
  { rewrite Hdefault.
    destruct (String.eqb cwd "" || ends_with_sep cwd)%bool;
      apply append_nonempty_right; discriminate. }
  split; [| split].
  - unfold init_persist_directory. destruct persist_directory as [p |]; trivial.
    destruct (String.eqb p "") eqn:Hp; trivial.
    intros ->. discriminate.
  - intros p -> Hp. unfold init_persist_directory.
    destruct (String.eqb_spec p ""); [contradiction | reflexivity].
  - intros Hfallback.
    assert (Hinit : init_persist_directory persist_directory cwd
                    = get_vectorstore_path cwd)
      by (destruct Hfallback as [-> | ->]; reflexivity).
    rewrite Hinit, Hdefault. split; [| split].
    + intros ->. reflexivity.
    + intros pre ->. rewrite eqb_empty_last, ends_with_sep_last. reflexivity.
    + intros pre c -> Hc. rewrite eqb_empty_last, ends_with_sep_last.
      destruct (Ascii.eqb_spec c sep); [contradiction | reflexivity].
Qed.

(* ------------------------------------------------------------------ *)
(** ** The lifecycle on concrete stores *)

Lemma _get_or_create_db_caches_what_it_returns_sample :
  _db (snd (_get_or_create_db None existing_store)) = Some tt.
Proof.
  apply (@_get_or_create_db_caches_what_it_returns MemoryChroma
           None existing_store (snd (_get_or_create_db None existing_store)) tt).
  reflexivity.
Defined.

(** A load that raises, an insert after a load that raises, a creation that
    raises: only the second leaves a handle cached. *)
Lemma _get_or_create_db_failure_and_cache_sample :
  @_get_or_create_db ScriptedChroma None
     (scripted_store [Some unreachable_provider])
    = (Raise unreachable_provider,
       @mkState ScriptedChroma None (Some ["chroma.sqlite3"%string])
         ([], [paris]) [@CallNew ScriptedChroma (Raise unreachable_provider)])
  /\
  _get_or_create_db (Some [tagged]) existing_store
    = (Raise bad_metadata,
       mkState (Some tt) (Some ["chroma.sqlite3"%string]) [paris]
         [CallNew (Ok tt); CallAddDocuments tt [tagged] (Raise bad_metadata)])
  /\
  _get_or_create_db (Some [tagged]) fresh_store
    = (Raise bad_metadata,
       mkState None (Some []) ([] : list Document)
         [CallFromDocuments [tagged] (Raise bad_metadata)]).
Proof.
  destruct (@_get_or_create_db_failure_and_cache ScriptedChroma None
              (scripted_store [Some unreachable_provider]) eq_refl)
    as (Hload & _ & _).
  destruct (@_get_or_create_db_failure_and_cache MemoryChroma
              (Some [tagged]) existing_store eq_refl)
    as (_ & Hinsert & _).
  destruct (@_get_or_create_db_failure_and_cache MemoryChroma
              (Some [tagged]) fresh_store eq_refl)
    as (_ & _ & Hcreate).
  split; [| split].
  - apply (Hload ["chroma.sqlite3"%string] unreachable_provider
             ["chroma.sqlite3"%string] ([], [paris]));
      [reflexivity | discriminate | reflexivity].
  - apply (Hinsert ["chroma.sqlite3"%string] tt ["chroma.sqlite3"%string]
             [paris] [tagged] bad_metadata ["chroma.sqlite3"%string] [paris]);
      [reflexivity | discriminate | reflexivity | reflexivity | reflexivity].
  - apply (Hcreate [tagged] bad_metadata [] []);
      [left; reflexivity | reflexivity | reflexivity].
Defined.


(** A load that raises, then a query that raises after the load returned. *)
Lemma search_error_origin_sample :
  (calls (snd (@search ScriptedChroma "capital" 5 (2 # 10)
                 (scripted_store [Some unreachable_provider])))
     = [@CallNew ScriptedChroma (Raise unreachable_provider)] /\
   _db (snd (@search ScriptedChroma "capital" 5 (2 # 10)
               (scripted_store [Some unreachable_provider]))) = None)
  /\
  (_db (snd (@search ScriptedChroma "capital" 5 (2 # 10)
               (scripted_store [None; Some unreachable_provider]))) = Some tt /\
   calls (snd (@search ScriptedChroma "capital" 5 (2 # 10)
                 (scripted_store [None; Some unreachable_provider])))
     = [@CallNew ScriptedChroma (Ok tt);
        @CallSearch ScriptedChroma tt "capital" 5 (2 # 10)
          (Raise unreachable_provider)]).
Proof.
  split.
  - destruct (@search_error_origin ScriptedChroma "capital" 5%Z (2 # 10)
                (scripted_store [Some unreachable_provider])
                (snd (@search ScriptedChroma "capital" 5 (2 # 10)
                        (scripted_store [Some unreachable_provider])))
                unreachable_provider eq_refl)
      as [[Hlog Hdb] | [[Hlog Hdb] | (h & Hdb & _)]].
    + vm_compute in Hlog. discriminate Hlog.
    + split; [exact Hlog | exact Hdb].
    + vm_compute in Hdb. discriminate Hdb.
  - destruct (@search_error_origin ScriptedChroma "capital" 5%Z (2 # 10)
                (scripted_store [None; Some unreachable_provider])
                (snd (@search ScriptedChroma "capital" 5 (2 # 10)
                        (scripted_store [None; Some unreachable_provider])))
                unreachable_provider eq_refl)
      as [[Hlog Hdb] | [[Hlog Hdb] | (h & Hdb & [Hlog | Hlog])]].
    + vm_compute in Hdb. discriminate Hdb.
    + vm_compute in Hdb. discriminate Hdb.
    + vm_compute in Hlog. discriminate Hlog.
    + destruct h. split; [exact Hdb | exact Hlog].
Defined.

Lemma add_documents_success_caches_handle_sample :
  exists h,
    _db (snd (add_documents sample_config [paris] fresh_store)) = Some h.
Proof.
  apply (@add_documents_success_caches_handle WindowSplitter MemoryChroma
           sample_config [paris] fresh_store
           (snd (add_documents sample_config [paris] fresh_store)) 1%nat).
  reflexivity.
Defined.

Lemma add_documents_creates_on_empty_directory_sample :
  add_documents sample_config [paris] fresh_store
    = (Ok 1%nat,
       mkState (Some tt) (Some ["chroma.sqlite3"%string]) [paris]
         [CallFromDocuments [paris] (Ok tt)]).
Proof.
  apply (@add_documents_creates_on_empty_directory WindowSplitter MemoryChroma
           sample_config [paris] [paris] fresh_store tt
           ["chroma.sqlite3"%string] [paris]).
  - reflexivity.
  - left. reflexivity.
  - reflexivity.
  - reflexivity.
Defined.

Lemma add_documents_loads_then_appends_sample :
  add_documents sample_config [alphabet] existing_store
    = (Ok 1%nat,
       mkState (Some tt) (Some ["chroma.sqlite3"%string]) [paris; alphabet]
         [CallNew (Ok tt); CallAddDocuments tt [alphabet] (Ok tt)]).
Proof.
  apply (@add_documents_loads_then_appends WindowSplitter MemoryChroma
           sample_config [alphabet] [alphabet] existing_store tt
           ["chroma.sqlite3"%string] ["chroma.sqlite3"%string]
           ["chroma.sqlite3"%string] [paris] [paris; alphabet]).
  - reflexivity.
  - reflexivity.
  - discriminate.
  - reflexivity.
  - reflexivity.
  - reflexivity.
Defined.

(** With the handle cached, the insert fails with a connection error. *)
Lemma add_documents_error_origin_sample :
  is_ValueError unreachable_provider = false /\
  _db (snd (@add_documents WindowSplitter ScriptedChroma sample_config
              [alphabet] store_before_outage)) = Some tt /\
  calls (snd (@add_documents WindowSplitter ScriptedChroma sample_config
                [alphabet] store_before_outage))
    = calls store_before_outage
      ++ [@CallAddDocuments ScriptedChroma tt [alphabet]
            (Raise unreachable_provider)].
Proof.
  apply (@add_documents_error_origin WindowSplitter ScriptedChroma
           sample_config [alphabet] [alphabet] store_before_outage
           (snd (@add_documents WindowSplitter ScriptedChroma sample_config
                   [alphabet] store_before_outage))
           tt unreachable_provider).
  - reflexivity.
  - reflexivity.
  - reflexivity.
Defined.

Lemma add_documents_propagates_other_errors_sample :
  @add_documents (RaisingSplitter not_a_string) MemoryChroma
     sample_config [paris] existing_store
    = (Raise not_a_string, existing_store)
  /\
  @add_documents WindowSplitter ScriptedChroma
     sample_config [alphabet] store_before_outage
    = (Raise unreachable_provider,
       @mkState ScriptedChroma (Some tt) (Some ["chroma.sqlite3"%string])
         ([], [paris; paris])
         (calls store_before_outage
          ++ [@CallAddDocuments ScriptedChroma tt [alphabet]
                (Raise unreachable_provider)])).
Proof.
  split.
  - destruct (@add_documents_propagates_other_errors
                (RaisingSplitter not_a_string) MemoryChroma sample_config
                [paris] existing_store not_a_string eq_refl) as [Hsplit _].
    apply Hsplit. reflexivity.
  - destruct (@add_documents_propagates_other_errors
                WindowSplitter ScriptedChroma sample_config
                [alphabet] store_before_outage unreachable_provider eq_refl)
      as [_ Hinsert].
    apply (Hinsert [alphabet] tt ["chroma.sqlite3"%string]
             ["chroma.sqlite3"%string] ([], [paris; paris])).
    + reflexivity.
    + reflexivity.
    + reflexivity.
    + reflexivity.
Defined.


Lemma reachable_single_open_sample :
  single_open
    (serve sample_config (ReqSearch "capital" 5 (2 # 10))
       (serve sample_config (ReqAdd [paris]) fresh_store)).
Proof.
  apply (@reachable_single_open WindowSplitter MemoryChroma sample_config).
  apply reach_step. apply reach_step. apply reach_init.
Defined.

Lemma search_after_add_documents_only_queries_sample :
  exists h out,
    _db (snd (add_documents sample_config [paris] fresh_store)) = Some h /\
    calls (snd (search "capital" 5 (2 # 10)
                  (snd (add_documents sample_config [paris] fresh_store))))
      = calls (snd (add_documents sample_config [paris] fresh_store))
        ++ [CallSearch h "capital" 5 (2 # 10) out] /\
    _db (snd (search "capital" 5 (2 # 10)
                (snd (add_documents sample_config [paris] fresh_store))))
      = Some h.
Proof.
  apply (@search_after_add_documents_only_queries WindowSplitter MemoryChroma
           sample_config [paris] fresh_store
           (snd (add_documents sample_config [paris] fresh_store)) 1%nat).
  reflexivity.
Defined.

Lemma init_persist_directory_cases_sample :
  init_persist_directory (Some "/data/index"%string) "/home/app"
    = "/data/index"%string /\
  init_persist_directory None "/home/app" = "/home/app/chromadb"%string /\
  init_persist_directory (Some ""%string) "/" = "/chromadb"%string /\
  init_persist_directory None "" = "chromadb"%string.
Proof.
  destruct (init_persist_directory_cases (Some "/data/index"%string)
              "/home/app") as (_ & Hkept & _).
  destruct (init_persist_directory_cases None "/home/app")
    as (_ & _ & Hhome).
  destruct (init_persist_directory_cases (Some ""%string) "/")
    as (_ & _ & Hroot).
  destruct (init_persist_directory_cases None "") as (_ & _ & Hnone).
  destruct (Hhome (or_introl eq_refl)) as (_ & _ & Hjoin).
  destruct (Hroot (or_intror eq_refl)) as (_ & Hslash & _).
  destruct (Hnone (or_introl eq_refl)) as (Hempty & _ & _).
  split; [| split; [| split]].
  - apply Hkept; [reflexivity | discriminate].
  - apply (Hjoin "/home/ap"%string "p"%char); [reflexivity | discriminate].
  - apply (Hslash ""%string). reflexivity.
  - apply Hempty. reflexivity.
Defined.

Lemma add_documents_twice_appends_sample :
  exists h out,
    _db (snd (add_documents sample_config [paris] fresh_store)) = Some h /\
    calls (snd (add_documents sample_config [alphabet]
                  (snd (add_documents sample_config [paris] fresh_store))))
      = calls (snd (add_documents sample_config [paris] fresh_store))
        ++ [CallAddDocuments h [alphabet] out] /\
    _db (snd (add_documents sample_config [alphabet]
                (snd (add_documents sample_config [paris] fresh_store))))
      = Some h.
Proof.
  apply (@add_documents_twice_appends WindowSplitter MemoryChroma
           sample_config [paris] [alphabet] [alphabet] fresh_store
           (snd (add_documents sample_config [paris] fresh_store)) 1%nat).
  - reflexivity.
  - reflexivity.
Defined.
